(** * The hydroclima2 wM-Bus driver: payload decoder

    A shallow embedding of [src/components/wmbus/driver_hydroclima2.cpp]:
    the two scalar decoders [toTemperature] and [toIndicationU], the
    packed date/time decoder [DecodeDateTime] and the manufacturer payload
    walk [Driver::processContent].

    Conventions.
    - C++ integers are [Z]; every conversion to a narrower or unsigned type
      is written out ([u16], [u32], [s32]).
    - [double] is the IEEE-754 binary64 format of [SpecFloat]
      (precision 53, emax 1024), rounding to nearest even.
    - A read outside an array is undefined behaviour in C++.  The embedding
      makes it visible: such a read ends the computation with [Undefined],
      carrying the offending index. *)

From Stdlib Require Import ZArith List Bool Lia String Ascii.
From Stdlib Require Import Numbers.DecimalString Strings.Byte Floats.SpecFloat.
Import ListNotations.

Local Open Scope string_scope.
Local Open Scope Z_scope.

(** ** Machine integers *)

Module MachineInt.

Definition u16 (z : Z) : Z := z mod 65536.
Definition u32 (z : Z) : Z := z mod 4294967296.

(** The value an [unsigned int] has when it is read back as an [int]
    (what [%d] does with it). *)
Definition s32 (z : Z) : Z :=
  let w := u32 z in if w <? 2147483648 then w else w - 4294967296.

(** [uchar] values are the 256 constructors of [Byte.byte]. *)
Definition uchar := Byte.byte.
Definition uchar_val (b : uchar) : Z := Z.of_N (Byte.to_N b).

Lemma uchar_val_range (b : uchar) : 0 <= uchar_val b <= 255.
Proof.
  unfold uchar_val. pose proof (Byte.to_N_bounded b) as Hb. lia.
Qed.

Lemma u16_small z : 0 <= z < 65536 -> u16 z = z.
Proof. intros Hz. unfold u16. now apply Z.mod_small. Qed.

Lemma u32_small z : 0 <= z < 4294967296 -> u32 z = z.
Proof. intros Hz. unfold u32. now apply Z.mod_small. Qed.

Lemma s32_small z : 0 <= z < 2147483648 -> s32 z = z.
Proof.
  intros Hz. unfold s32. rewrite u32_small by lia.
  destruct (Z.ltb_spec z 2147483648); lia.
Qed.

End MachineInt.
Import MachineInt.

(** ** Outcomes: a result, or undefined behaviour *)

Inductive fault : Type :=
| TableOverrun (index : Z)     (* daysInMonths[index], index past the table *)
| BufferOverrun (index : Z)    (* bytes[index], index past the vector *)
| LoopBudget.                  (* the embedding's loop budget ran out *)

Inductive outcome (A : Type) : Type :=
| Ok (a : A)
| Undefined (f : fault).
Arguments Ok {A} a.
Arguments Undefined {A} f.

Definition bind {A B} (m : outcome A) (k : A -> outcome B) : outcome B :=
  match m with
  | Ok a => k a
  | Undefined f => Undefined f
  end.

Notation "x <- m ;; k" := (bind m (fun x => k))
  (at level 61, m at next level, right associativity).

(** ** Doubles *)

Definition double := spec_float.

(** An [int] converted to [double]; exact below 2^53. *)
Definition double_of_int (z : Z) : double := binary_normalize 53 1024 z 0 false.
Definition double_div (x y : double) : double := SFdiv 53 1024 x y.

Definition double_is_finite (x : double) : bool :=
  match x with
  | S754_zero _ | S754_finite _ _ _ => true
  | _ => false
  end.

(** ** Scalar decoders *)

(** [return ((double)((hi<<8) | lo))/100.0;] *)
Definition toTemperature (hi lo : Z) : double :=
  double_div (double_of_int (Z.lor (Z.shiftl hi 8) lo)) (double_of_int 100).

(** [return ((double)((hi<<8) | lo))/10.0;] *)
Definition toIndicationU (hi lo : Z) : double :=
  double_div (double_of_int (Z.lor (Z.shiftl hi 8) lo)) (double_of_int 10).

(** ** printf conversions *)

Module Printf.

(** [%d] of an [int]. *)
Definition fmt_d (z : Z) : string := NilZero.string_of_int (Z.to_int z).

(** [%02d]: at least two characters, padded on the left with ['0']. *)
Definition fmt_02d (z : Z) : string :=
  let s := fmt_d z in
  if (String.length s <? 2)%nat then "0" ++ s else s.

Definition hex_digit (z : Z) : ascii :=
  if z <? 10 then ascii_of_N (Z.to_N (48 + z))
  else ascii_of_N (Z.to_N (55 + z)).

(** [%02X] of a promoted [uchar]: two upper-case hexadecimal digits. *)
Definition fmt_02X (z : Z) : string :=
  String (hex_digit (z / 16)) (String (hex_digit (z mod 16)) "").

(** [snprintf(buf, size, ...)] keeps at most [size - 1] characters. *)
Definition snprintf (size : nat) (s : string) : string :=
  substring 0 (size - 1) s.

End Printf.
Import Printf.

(** ** The date/time decoder *)

(** [uint daysInMonths[] = { 31, 28, 31, 30, 31, 30, 31, 31, 30, 31, 30, 31 };] *)
Definition daysInMonths_init : list Z :=
  [31; 28; 31; 30; 31; 30; 31; 31; 30; 31; 30; 31].

(** [bool isLeapYear = (year % 4 == 0 && year % 100 != 0) || (year % 400 == 0);] *)
Definition isLeapYear (year : Z) : bool :=
  ((year mod 4 =? 0) && negb (year mod 100 =? 0)) || (year mod 400 =? 0).

(** An in-bounds array store [a[i] = v]. *)
Fixpoint store (a : list Z) (i : nat) (v : Z) : list Z :=
  match a, i with
  | [], _ => []
  | _ :: rest, O => v :: rest
  | x :: rest, S i' => x :: store rest i' v
  end.

(** [if(isLeapYear) daysInMonths[1] = 29;] *)
Definition daysInMonths_for (year : Z) : list Z :=
  if isLeapYear year then store daysInMonths_init 1 29 else daysInMonths_init.

(** The loop
<<
    while (dayOfYear > daysInMonths[month])
    {
        dayOfYear -= daysInMonths[month];
        month++;
    }
>>
    [dayOfYear] is a [ushort] and [month] a [uint].  Every unit of [budget]
    pays for one evaluation of the loop condition, that is, one read of
    [daysInMonths[month]]; a read past the end of the table is
    [Undefined (TableOverrun month)].  The result is the final
    [(month, dayOfYear)]. *)
Fixpoint month_walk (budget : nat) (daysInMonths : list Z)
         (dayOfYear month : Z) : outcome (Z * Z) :=
  match budget with
  | O => Undefined LoopBudget
  | S budget' =>
      match nth_error daysInMonths (Z.to_nat month) with
      | None => Undefined (TableOverrun month)
      | Some days =>
          if dayOfYear >? days
          then month_walk budget' daysInMonths
                          (u16 (u32 (dayOfYear - days))) (u32 (month + 1))
          else Ok (month, dayOfYear)
      end
  end.

(** Thirteen reads are the most the loop can make on a twelve-entry table:
    twelve inside it and the one just past it
    (see [month_walk_budget_suffices]). *)
Definition walk_budget : nat := 13.

(** [ushort dayOfYear = (ushort)(encodedDate & 0x1FF);] *)
Definition dayOfYear_of (encodedDate : Z) : Z := u16 (Z.land encodedDate 511).

(** [ushort yearOffset = (ushort)((encodedDate >> 9) & 0x7F);] *)
Definition yearOffset_of (encodedDate : Z) : Z :=
  u16 (Z.land (Z.shiftr encodedDate 9) 127).

(** [uint year = yearOffset + 2000;] *)
Definition year_of (encodedDate : Z) : Z := u32 (yearOffset_of encodedDate + 2000).

(** [uint hour = encodedTime / 1800;] *)
Definition hour_of (encodedTime : Z) : Z := u32 (encodedTime / 1800).

(** [uint minutes = (encodedTime - (hour * 1800)) / 30;] *)
Definition minutes_of (encodedTime : Z) : Z :=
  u32 (encodedTime - u32 (hour_of encodedTime * 1800)) / 30.

(** [uint seconds = (encodedTime - (hour * 1800) - (minutes * 30)) / 2;] *)
Definition seconds_of (encodedTime : Z) : Z :=
  u32 (u32 (encodedTime - u32 (hour_of encodedTime * 1800))
       - u32 (minutes_of encodedTime * 30)) / 2.

(** ["%d-%02d-%02dT%02d:%02d:%02dZ"] into [char buf[30]]. *)
Definition format_timestamp (year month dayOfYear hour minutes seconds : Z)
  : string :=
  snprintf 30
    (fmt_d (s32 year) ++ "-" ++ fmt_02d (s32 month) ++ "-" ++ fmt_02d dayOfYear
     ++ "T" ++ fmt_02d (s32 hour) ++ ":" ++ fmt_02d (s32 minutes)
     ++ ":" ++ fmt_02d (s32 seconds) ++ "Z").

(** [string DecodeDateTime(ushort encodedDate, ushort encodedTime)] *)
Definition DecodeDateTime (encodedDate encodedTime : Z) : outcome string :=
  let dayOfYear := dayOfYear_of encodedDate in
  let year := year_of encodedDate in
  let month := 0 in
  let daysInMonths := daysInMonths_for year in
  md <- month_walk walk_budget daysInMonths dayOfYear month ;;
  let '(month, dayOfYear) := md in
  let hour := hour_of encodedTime in
  let minutes := minutes_of encodedTime in
  let seconds := seconds_of encodedTime in
  Ok (format_timestamp year month dayOfYear hour minutes seconds).

(** ** The telegram, the meter and the payload walk *)

Inductive KindOfData : Type := PROTOCOL | CONTENT.
Inductive Understanding : Type := NONE | ENCRYPTED | COMPRESSED | PARTIAL | FULL.
Inductive Unit : Type := Unit_HCA | Unit_C.
Inductive Quantity : Type := Quantity_HCA | Quantity_Temperature.

(** One call of [Telegram::addSpecialExplanation]. *)
Record Explanation : Type := mkExplanation {
  ex_pos : Z;
  ex_len : Z;
  ex_kind : KindOfData;
  ex_understanding : Understanding;
  ex_info : string
}.

(** The parts of a [Telegram] the driver touches.  [mfct_data] is what
    [extractMfctData] hands back: the frame bytes after the DIF 0x0F.
    [explanations] collects the [addSpecialExplanation] calls, oldest
    first. *)
Record Telegram : Type := mkTelegram {
  header_size : Z;
  mfct_0f_index : Z;
  mfct_data : list uchar;
  explanations : list Explanation
}.

(** The numeric fields of the meter: the [setNumericValue] calls, newest
    first. *)
Definition Meter : Type := list (string * Unit * double).

Definition addSpecialExplanation (t : Telegram) (pos len : Z)
           (k : KindOfData) (u : Understanding) (info : string) : Telegram :=
  mkTelegram (header_size t) (mfct_0f_index t) (mfct_data t)
             (explanations t ++ [mkExplanation pos len k u info]).

Definition setNumericValue (m : Meter) (name : string) (u : Unit) (v : double)
  : Meter := (name, u, v) :: m.

Fixpoint getNumericValue (m : Meter) (name : string) : option double :=
  match m with
  | [] => None
  | (n, _, v) :: rest =>
      if String.eqb n name then Some v else getNumericValue rest name
  end.

(** [bytes[i]] on a [vector<uchar>], promoted to [int]; unchecked in C++. *)
Definition byte_at (bytes : list uchar) (i : Z) : outcome Z :=
  match nth_error bytes (Z.to_nat i) with
  | Some b => Ok (uchar_val b)
  | None => Undefined (BufferOverrun i)
  end.

Section Driver.

(** [renderJsonOnlyDefaultUnit] belongs to [MeterCommonImplementation],
    outside this file: it renders a stored field as text. *)
Variable renderJsonOnlyDefaultUnit : Meter -> string -> Quantity -> string.

(** [void Driver::processContent(Telegram *t)].  The telegram and the
    meter are threaded through; every [return] hands both back.
    [debugPayload] only logs and is left out. *)
Definition processContent (t : Telegram) (m : Meter)
  : outcome (Telegram * Meter) :=
  if mfct_0f_index t =? -1 then Ok (t, m) else
  let offset := header_size t + mfct_0f_index t in
  let bytes := mfct_data t in
  let i := 0 in
  let len := Z.of_nat (List.length bytes) in

  if i + 1 >=? len then Ok (t, m) else
  b0 <- byte_at bytes i ;;
  b1 <- byte_at bytes (i + 1) ;;
  let num_measurements := u16 (Z.lor (Z.shiftl b1 8) b0) in
  let t := addSpecialExplanation t (i + offset) 2 CONTENT FULL
             ("*** " ++ fmt_02X b0 ++ fmt_02X b1 ++ " num measurements "
              ++ fmt_d num_measurements) in
  let i := i + 2 in

  if i + 1 >=? len then Ok (t, m) else
  b0 <- byte_at bytes i ;;
  b1 <- byte_at bytes (i + 1) ;;
  let t := addSpecialExplanation t (i + offset) 2 CONTENT FULL
             ("*** " ++ fmt_02X b0 ++ fmt_02X b1 ++ " status") in
  let i := i + 2 in

  if i + 3 >=? len then Ok (t, m) else
  b0 <- byte_at bytes i ;;
  b1 <- byte_at bytes (i + 1) ;;
  b2 <- byte_at bytes (i + 2) ;;
  b3 <- byte_at bytes (i + 3) ;;
  let time := u16 (Z.lor (Z.shiftl b1 8) b0) in
  let date := u16 (Z.lor (Z.shiftl b3 8) b2) in
  decodedDateTime <- DecodeDateTime date time ;;
  let t := addSpecialExplanation t (i + offset) 2 CONTENT FULL
             ("*** " ++ fmt_02X b0 ++ fmt_02X b1 ++ fmt_02X b2 ++ fmt_02X b3
              ++ " device date (" ++ decodedDateTime ++ ")") in
  let i := i + 4 in

  if i + 1 >=? len then Ok (t, m) else
  b0 <- byte_at bytes i ;;
  b1 <- byte_at bytes (i + 1) ;;
  let indication_u := toIndicationU b1 b0 in
  let m := setNumericValue m "previous_consumption" Unit_HCA indication_u in
  let info := renderJsonOnlyDefaultUnit m "previous_consumption" Quantity_HCA in
  let t := addSpecialExplanation t (i + offset) 2 CONTENT FULL
             ("*** " ++ fmt_02X b0 ++ fmt_02X b1 ++ " (" ++ info ++ ")") in
  let i := i + 2 in

  if i + 1 >=? len then Ok (t, m) else
  b0 <- byte_at bytes i ;;
  b1 <- byte_at bytes (i + 1) ;;
  let average_ambient_temperature_c := toTemperature b1 b0 in
  let m := setNumericValue m "previous_average_ambient_temperature" Unit_C
             average_ambient_temperature_c in
  let info := renderJsonOnlyDefaultUnit m
                "previous_average_ambient_temperature" Quantity_Temperature in
  let t := addSpecialExplanation t (i + offset) 2 CONTENT FULL
             ("*** " ++ fmt_02X b0 ++ fmt_02X b1 ++ " (" ++ info ++ ")") in
  let i := i + 2 in

  if i + 1 >=? len then Ok (t, m) else
  b0 <- byte_at bytes i ;;
  b1 <- byte_at bytes (i + 1) ;;
  let indication_c := toIndicationU b1 b0 in
  let m := setNumericValue m "current_consumption" Unit_HCA indication_c in
  let info := renderJsonOnlyDefaultUnit m "current_consumption" Quantity_HCA in
  let t := addSpecialExplanation t (i + offset) 2 CONTENT FULL
             ("*** " ++ fmt_02X b0 ++ fmt_02X b1 ++ " (" ++ info ++ ")") in
  let i := i + 2 in

  if i + 1 >=? len then Ok (t, m) else
  b0 <- byte_at bytes i ;;
  b1 <- byte_at bytes (i + 1) ;;
  let max_ambient_temperature_c := toTemperature b1 b0 in
  let m := setNumericValue m "average_ambient_temperature" Unit_C
             max_ambient_temperature_c in
  let info := renderJsonOnlyDefaultUnit m "average_ambient_temperature"
                Quantity_Temperature in
  let t := addSpecialExplanation t (i + offset) 2 CONTENT FULL
             ("*** " ++ fmt_02X b0 ++ fmt_02X b1 ++ " (" ++ info ++ ")") in
  Ok (t, m).

End Driver.

(** ** Vocabulary of the properties *)

(** [P] holds on the [n] integers from [lo] upwards. *)
Fixpoint all_from (P : Z -> bool) (lo : Z) (n : nat) : bool :=
  match n with
  | O => true
  | S k => P lo && all_from P (lo + 1) k
  end.

(** [x] is zero, or finite with mantissa at most [M] and exponent between
    [lo] and [hi]: in particular neither NaN nor an infinity. *)
Definition double_within (M lo hi : Z) (x : double) : Prop :=
  match x with
  | S754_zero _ => True
  | S754_finite _ m e => Zpos m <= M /\ lo <= e <= hi
  | _ => False
  end.

Definition table_sum (l : list Z) : Z := fold_right Z.add 0 l.

Definition days_in_year (year : Z) : Z := if isLeapYear year then 366 else 365.

(** The two halves of the format string of [DecodeDateTime]. *)
Definition date_text (year month day : Z) : string :=
  fmt_d year ++ "-" ++ fmt_02d month ++ "-" ++ fmt_02d day.

Definition time_text (hour minutes seconds : Z) : string :=
  "T" ++ fmt_02d hour ++ ":" ++ fmt_02d minutes ++ ":" ++ fmt_02d seconds ++ "Z".

(** The seven segments [processContent] walks: the value of [i] at each
    bounds check, the number of bytes the check asks for and, for a value
    segment, the numeric field it is stored in, with its unit and the scalar
    decoder applied to [(bytes[i+1], bytes[i])]. *)
Record Segment : Type := mkSegment {
  seg_offset : Z;
  seg_size : Z;
  seg_field : option (string * Unit * (Z -> Z -> double))
}.

Definition segments : list Segment :=
  [ mkSegment 0 2 None;
    mkSegment 2 2 None;
    mkSegment 4 4 None;
    mkSegment 8 2 (Some ("previous_consumption", Unit_HCA, toIndicationU));
    mkSegment 10 2 (Some ("previous_average_ambient_temperature", Unit_C,
                          toTemperature));
    mkSegment 12 2 (Some ("current_consumption", Unit_HCA, toIndicationU));
    mkSegment 14 2 (Some ("average_ambient_temperature", Unit_C,
                          toTemperature)) ].

Definition fits (len : Z) (s : Segment) : bool :=
  seg_offset s + seg_size s <=? len.

(** The segments up to the first one that does not fit. *)
Fixpoint fitting_prefix (len : Z) (segs : list Segment) : list Segment :=
  match segs with
  | [] => []
  | s :: rest => if fits len s then s :: fitting_prefix len rest else []
  end.

Definition payload_byte (bytes : list uchar) (i : Z) : Z :=
  match nth_error bytes (Z.to_nat i) with
  | Some b => uchar_val b
  | None => 0
  end.

(** The numeric values the value segments among [segs] stand for, in
    segment order. *)
Fixpoint values_of (bytes : list uchar) (segs : list Segment)
  : list (string * Unit * double) :=
  match segs with
  | [] => []
  | s :: rest =>
      match seg_field s with
      | Some (name, unit, decoder) =>
          (name, unit,
           decoder (payload_byte bytes (seg_offset s + 1))
                   (payload_byte bytes (seg_offset s)))
          :: values_of bytes rest
      | None => values_of bytes rest
      end
  end.

(** The 16-bit value [bytes[i+1]<<8 | bytes[i]]. *)
Definition le16 (lo hi : uchar) : Z :=
  u16 (Z.lor (Z.shiftl (uchar_val hi) 8) (uchar_val lo)).

(** The date segment of a payload, when all of it is there, carries a day
    of the year that lies within the year. *)
Definition date_within_year (bytes : list uchar) : Prop :=
  forall lo hi,
    (8 <= List.length bytes)%nat ->
    nth_error bytes 6 = Some lo -> nth_error bytes 7 = Some hi ->
    dayOfYear_of (le16 lo hi) <= days_in_year (year_of (le16 lo hi)).

(** The payload of the end-to-end scenario:
    02 00 00 00 64 19 32 07 E8 03 0F 27 10. *)
Definition scenario_payload : list uchar :=
  [x02; x00; x00; x00; x64; x19; x32; x07; xe8; x03; x0f; x27; x10].

Definition scenario_telegram : Telegram := mkTelegram 0 0 scenario_payload [].

(** A payload whose date segment is FF 01: day of the year 511. *)
Definition overlong_day_payload : list uchar :=
  [x00; x00; x00; x00; x00; x00; xff; x01].


(** ** The driver's numeric fields *)






(** ** Further vocabulary *)


Definition is_digit (c : ascii) : bool :=
  let n := N_of_ascii c in ((48 <=? n) && (n <=? 57))%N.

Fixpoint all_digits (s : string) : bool :=
  match s with
  | EmptyString => true
  | String c rest => is_digit c && all_digits rest
  end.

(** Two doubles are the same datum: same class, sign, mantissa and
    exponent. *)
Definition double_same (x y : double) : bool :=
  match x, y with
  | S754_zero s, S754_zero s' => Bool.eqb s s'
  | S754_infinity s, S754_infinity s' => Bool.eqb s s'
  | S754_nan, S754_nan => true
  | S754_finite s m e, S754_finite s' m' e' =>
      Bool.eqb s s' && Pos.eqb m m' && Z.eqb e e'
  | _, _ => false
  end.
(** * Properties *)

(** ** Bounded enumeration *)

Lemma all_from_sound (P : Z -> bool) (n : nat) :
  forall lo, all_from P lo n = true ->
  forall z, lo <= z < lo + Z.of_nat n -> P z = true.
Proof.
  induction n as [|k IH]; intros lo Hall z Hz.
  - simpl in Hz. lia.
  - simpl in Hall. apply andb_prop in Hall as [Hlo Hrest].
    destruct (Z.eq_dec z lo) as [->|Hne]; [exact Hlo|].
    apply (IH (lo + 1) Hrest). lia.
Qed.

(** ** Strings *)

Lemma string_length_app (s1 s2 : string) :
  String.length (s1 ++ s2) = (String.length s1 + String.length s2)%nat.
Proof. induction s1 as [|c s1 IH]; simpl; [reflexivity | now rewrite IH]. Qed.

Lemma string_app_assoc (s1 s2 s3 : string) :
  ((s1 ++ s2) ++ s3 = s1 ++ (s2 ++ s3))%string.
Proof. induction s1 as [|c s1 IH]; simpl; [reflexivity | now rewrite IH]. Qed.

Lemma substring_whole (s : string) :
  forall n, (String.length s <= n)%nat -> substring 0 n s = s.
Proof.
  induction s as [|c s IH]; intros n Hn.
  - now destruct n.
  - destruct n as [|n]; simpl in *; [lia|]. rewrite IH by lia. reflexivity.
Qed.

Lemma snprintf_fits (size : nat) (s : string) :
  (String.length s < size)%nat -> snprintf size s = s.
Proof. intros Hlen. unfold snprintf. apply substring_whole. lia. Qed.

(** ** The byte pair [(hi<<8) | lo] *)

Lemma shifted_byte_disjoint (hi lo : Z) :
  0 <= lo <= 255 -> Z.land (Z.shiftl hi 8) lo = 0.
Proof.
  intros Hlo. apply Z.bits_inj'. intros n Hn.
  rewrite Z.land_spec, Z.bits_0.
  destruct (Z.lt_ge_cases n 8) as [Hlow|Hhigh].
  - rewrite Z.shiftl_spec_low by assumption. reflexivity.
  - destruct (Z.eq_dec lo 0) as [->|Hpos].
    + rewrite Z.bits_0. apply andb_false_r.
    + rewrite (Z.bits_above_log2 lo n); [apply andb_false_r | lia |].
      apply Z.lt_le_trans with 8; [|assumption].
      apply Z.log2_lt_pow2; lia.
Qed.

Lemma byte_pair_value (hi lo : Z) :
  0 <= lo <= 255 -> Z.lor (Z.shiftl hi 8) lo = hi * 256 + lo.
Proof.
  intros Hlo. pose proof (shifted_byte_disjoint hi lo Hlo) as Hdisj.
  rewrite <- Z.lxor_lor by assumption.
  rewrite <- Z.add_nocarry_lxor by assumption.
  rewrite Z.shiftl_mul_pow2 by lia. reflexivity.
Qed.

(** ** Doubles stay finite *)

Module DoubleRange.

Lemma digits2_pos_size p : digits2_pos p = Pos.size p.
Proof. induction p as [p IH|p IH|]; simpl; now rewrite ?IH. Qed.

Lemma Zdigits2_bound m k :
  0 <= k -> 0 <= m < 2 ^ k -> 0 <= Zdigits2 m <= k.
Proof.
  intros Hk [Hm0 Hmk]. destruct m as [|p|p]; simpl; [lia| |lia].
  rewrite digits2_pos_size. split; [lia|].
  pose proof (Pos.size_le p) as Hs.
  apply Pos2Z.pos_le_pos in Hs. rewrite Pos2Z.inj_pow in Hs.
  change (Z.pos p~0) with (2 * Z.pos p) in Hs.
  destruct (Z.le_gt_cases (Z.pos (Pos.size p)) k) as [|Hgt]; [assumption|].
  exfalso.
  assert (2 ^ (k + 1) <= 2 ^ Z.pos (Pos.size p))
    by (apply Z.pow_le_mono_r; lia).
  rewrite Z.pow_add_r in H by lia. lia.
Qed.

Lemma iter_pos_invariant {A} (f : A -> A) (P : A -> Prop) :
  (forall x, P x -> P (f x)) ->
  forall n x, P x -> P (iter_pos f n x).
Proof.
  intros Hf. induction n as [n IH|n IH|]; intros x Hx; simpl; auto.
Qed.

Lemma shr_1_mantissa (M : Z) mrs :
  0 <= shr_m mrs <= M -> 0 <= shr_m (shr_1 mrs) <= M.
Proof.
  destruct mrs as [m r s]. simpl.
  destruct m as [|[p|p|]|[p|p|]]; simpl; lia.
Qed.

Lemma shr_record_of_loc_m m l : shr_m (shr_record_of_loc m l) = m.
Proof. destruct l as [|[| |]]; reflexivity. Qed.

Lemma shr_fexp_bounds m e l :
  0 <= m ->
  0 <= shr_m (fst (shr_fexp 53 1024 m e l)) <= m
  /\ e <= snd (shr_fexp 53 1024 m e l)
     <= Z.max e (fexp 53 1024 (Zdigits2 m + e)).
Proof.
  intros Hm. unfold shr_fexp, shr.
  destruct (fexp 53 1024 (Zdigits2 m + e) - e) as [|n|n] eqn:Hn; simpl.
  - rewrite shr_record_of_loc_m. lia.
  - split; [|lia].
    apply (iter_pos_invariant shr_1 (fun r => 0 <= shr_m r <= m)).
    + intros x. apply shr_1_mantissa.
    + rewrite shr_record_of_loc_m. lia.
  - rewrite shr_record_of_loc_m. lia.
Qed.

Lemma round_nearest_even_bounds m l :
  m <= round_nearest_even m l <= m + 1.
Proof.
  unfold round_nearest_even.
  destruct l as [|[| |]]; try lia. destruct (Z.even m); lia.
Qed.

Lemma fexp_bounds e : e - 53 <= fexp 53 1024 e /\ -1074 <= fexp 53 1024 e
                      /\ fexp 53 1024 e <= Z.max (e - 53) (-1074).
Proof. unfold fexp, emin. lia. Qed.

(** Rounding a non-negative mantissa below [2^K] moves the exponent up by
    at most [2K] and never leaves the finite numbers. *)
Lemma binary_round_aux_within sx mx ex lx K :
  0 <= K -> 0 <= mx < 2 ^ K -> -1074 <= ex -> ex + 2 * K <= 971 ->
  double_within (2 ^ K) ex (ex + 2 * K) (binary_round_aux 53 1024 sx mx ex lx).
Proof.
  intros HK Hmx Hex Hfit. unfold binary_round_aux.
  pose proof (shr_fexp_bounds mx ex lx ltac:(lia)) as [Hm1 He1].
  destruct (shr_fexp 53 1024 mx ex lx) as [mrs' e'] eqn:H1. simpl in Hm1, He1.
  pose proof (Zdigits2_bound mx K HK Hmx) as Hd1.
  pose proof (fexp_bounds (Zdigits2 mx + ex)) as Hf1.
  set (mr := round_nearest_even (shr_m mrs') (loc_of_shr_record mrs')).
  pose proof (round_nearest_even_bounds (shr_m mrs') (loc_of_shr_record mrs'))
    as Hr. fold mr in Hr.
  assert (Hmr : 0 <= mr < 2 ^ (K + 1)).
  { rewrite Z.pow_add_r by lia. lia. }
  pose proof (shr_fexp_bounds mr e' loc_Exact ltac:(lia)) as [Hm2 He2].
  destruct (shr_fexp 53 1024 mr e' loc_Exact) as [mrs'' e''] eqn:H2.
  simpl in Hm2, He2.
  pose proof (Zdigits2_bound mr (K + 1) ltac:(lia) Hmr) as Hd2.
  pose proof (fexp_bounds (Zdigits2 mr + e')) as Hf2.
  destruct (shr_m mrs'') as [|m|m] eqn:Hm; cbv beta iota;
    [exact I| |lia].
  destruct (Z.leb_spec e'' (1024 - 53)) as [_|Hbig];
    unfold double_within; lia.
Qed.

Lemma pos_iter_xO p d : Zpos (Pos.iter xO p d) = Zpos p * 2 ^ Zpos d.
Proof.
  induction d as [|d IH] using Pos.peano_ind.
  - simpl. lia.
  - rewrite Pos.iter_succ, Pos2Z.inj_succ, Z.pow_succ_r by lia.
    rewrite Pos2Z.inj_xO, IH. lia.
Qed.

(** An integer below 2^16 converts to a finite double. *)
Lemma double_of_int_within v :
  0 <= v < 65536 -> double_within (2 ^ 68) (-52) 99 (double_of_int v).
Proof.
  intros Hv. unfold double_of_int, binary_normalize.
  destruct v as [|p|p]; [exact I| |lia].
  unfold binary_round, shl_align.
  pose proof (Zdigits2_bound (Zpos p) 16 ltac:(lia) ltac:(lia)) as Hd.
  simpl Zdigits2 in Hd.
  pose proof (fexp_bounds (Zpos (digits2_pos p) + 0)) as Hf.
  destruct (fexp 53 1024 (Zpos (digits2_pos p) + 0) - 0) as [|d|d] eqn:Hshift.
  - exfalso. lia.
  - exfalso. lia.
  - assert (Hmz : 0 <= Zpos (Pos.iter xO p d) < 2 ^ 68).
    { rewrite pos_iter_xO. split; [lia|].
      assert (2 ^ Zpos d <= 2 ^ 52) by (apply Z.pow_le_mono_r; lia).
      change (2 ^ 68) with (2 ^ 16 * 2 ^ 52). nia. }
    pose proof (binary_round_aux_within false (Zpos (Pos.iter xO p d))
                  (fexp 53 1024 (Zpos (digits2_pos p) + 0)) loc_Exact 68
                  ltac:(lia) Hmz ltac:(lia) ltac:(lia)) as Hr.
    destruct (binary_round_aux _ _ _ _ _ _) as [| | |s m e];
      unfold double_within in *; try exact Hr. lia.
Qed.

(** Dividing such a double by a finite 53-bit divisor of small exponent
    stays finite. *)
Lemma double_div_within x sy my ey :
  double_within (2 ^ 68) (-52) 99 x ->
  digits2_pos my = 53%positive -> -49 <= ey <= -46 ->
  double_is_finite (double_div x (S754_finite sy my ey)) = true.
Proof.
  intros Hx Hmy Hey. unfold double_div, SFdiv.
  destruct x as [sx| | |sx mx ex]; simpl in Hx; try contradiction;
    [reflexivity|].
  destruct Hx as [Hmx Hex].
  unfold SFdiv_core_binary.
  change IntDef.Z.min with Z.min. change IntDef.Z.shiftl with Z.shiftl.
  change IntDef.Z.div_eucl with Z.div_eucl.
  change (Zdigits2 (Zpos my)) with (Zpos (digits2_pos my)). rewrite Hmy.
  pose proof (Zdigits2_bound (Zpos mx) 69 ltac:(lia)
                ltac:(change (2 ^ 69) with (2 * 2 ^ 68); lia)) as Hd1.
  assert (Hd1' : 1 <= Zdigits2 (Zpos mx)) by (simpl; lia).
  set (d1 := Zdigits2 (Zpos mx)) in *.
  pose proof (fexp_bounds (d1 + ex - (53 + ey))) as Hf.
  set (e' := Z.min (fexp 53 1024 (d1 + ex - (53 + ey))) (ex - ey)).
  assert (He' : -1074 <= e' <= ex - ey) by (unfold e'; lia).
  assert (Hs : 0 <= ex - ey - e' <= 105) by (unfold e'; lia).
  set (m' := match ex - ey - e' with
             | 0 => Zpos mx
             | Zpos _ => Z.shiftl (Zpos mx) (ex - ey - e')
             | Zneg _ => 0
             end).
  assert (Hm' : 0 <= m' < 2 ^ 174).
  { unfold m'. destruct (ex - ey - e') as [|s|s] eqn:Hse.
    - change (2 ^ 174) with (2 ^ 68 * 2 ^ 106). lia.
    - rewrite Z.shiftl_mul_pow2 by lia.
      assert (2 ^ Zpos s <= 2 ^ 105) by (apply Z.pow_le_mono_r; lia).
      change (2 ^ 174) with (2 ^ 68 * 2 ^ 105 * 2). nia.
    - lia. }
  pose proof (Z.div_eucl_eq m' (Zpos my) ltac:(lia)) as Hdiv.
  pose proof (Z.mod_pos_bound m' (Zpos my) ltac:(lia)) as Hrem.
  unfold Z.modulo in Hrem.
  destruct (Z.div_eucl m' (Zpos my)) as [q r].
  assert (Hq : 0 <= q < 2 ^ 174) by nia.
  pose proof (binary_round_aux_within (xorb sx sy) q e'
                (new_location (Zpos my) r) 174
                ltac:(lia) Hq ltac:(lia) ltac:(lia)) as Hr.
  destruct (binary_round_aux _ _ _ _ _ _); unfold double_within in Hr;
    try contradiction; reflexivity.
Qed.

End DoubleRange.

(** ** Scalar decoders *)

Lemma divisor_10 : double_of_int 10 = S754_finite false 5629499534213120 (-49).
Proof. reflexivity. Qed.

Lemma divisor_100 :
  double_of_int 100 = S754_finite false 7036874417766400 (-46).
Proof. reflexivity. Qed.

Lemma quotient_finite (v d : Z) :
  0 <= v < 65536 -> d = 10 \/ d = 100 ->
  double_is_finite (double_div (double_of_int v) (double_of_int d)) = true.
Proof.
  intros Hv [-> | ->]; [rewrite divisor_10 | rewrite divisor_100];
    (apply DoubleRange.double_div_within;
     [now apply DoubleRange.double_of_int_within | reflexivity | lia]).
Qed.

(** C3.  For bytes [hi] and [lo], [toIndicationU] is the binary64 division
    of the exactly converted integer [hi*256+lo] by 10.0, and
    [toTemperature] its binary64 division by 100.0.  Both are total and
    have no failure value: the result is never a NaN or an infinity. *)
Theorem scalar_decoders_exact (hi lo : Z) :
  0 <= hi <= 255 -> 0 <= lo <= 255 ->
  toIndicationU hi lo
    = double_div (double_of_int (hi * 256 + lo)) (double_of_int 10)
  /\ toTemperature hi lo
    = double_div (double_of_int (hi * 256 + lo)) (double_of_int 100)
  /\ double_is_finite (toIndicationU hi lo) = true
  /\ double_is_finite (toTemperature hi lo) = true.
Proof.
  intros Hhi Hlo. unfold toIndicationU, toTemperature.
  rewrite byte_pair_value by assumption.
  assert (Hv : 0 <= hi * 256 + lo < 65536) by lia.
  split; [reflexivity|]. split; [reflexivity|].
  split; apply quotient_finite; auto.
Qed.

Lemma scalar_decoders_exact_witness :
  (0 <= 3 <= 255) /\ (0 <= 232 <= 255)
  /\ toIndicationU 3 232 = S754_finite false 7036874417766400 (-46)
  /\ double_is_finite (toIndicationU 3 232) = true.
Proof.
  assert (Hhi : 0 <= 3 <= 255) by lia.
  assert (Hlo : 0 <= 232 <= 255) by lia.
  split; [exact Hhi|]. split; [exact Hlo|].
  destruct (scalar_decoders_exact 3 232 Hhi Hlo) as (Hi & _ & Hfin & _).
  split; [rewrite Hi; reflexivity | exact Hfin].
Defined.

(** ** The month table walk *)

Lemma table_sum_nonneg (l : list Z) :
  Forall (fun d => 0 <= d) l -> 0 <= table_sum l.
Proof.
  induction 1 as [|d l Hd _ IH]; simpl; lia.
Qed.

Lemma table_sum_cons (d : Z) (l : list Z) :
  table_sum (d :: l) = d + table_sum l.
Proof. reflexivity. Qed.

Lemma skipn_nth_error {A} (l : list A) :
  forall k x, nth_error l k = Some x -> skipn k l = x :: skipn (S k) l.
Proof.
  induction l as [|y l IH]; intros [|k] x Hx; simpl in *; try discriminate.
  - now inversion Hx.
  - now apply IH.
Qed.

Lemma Forall_suffix {A} (P : A -> Prop) (l : list A) :
  Forall P l -> forall k, Forall P (skipn k l).
Proof.
  induction 1 as [|x l Hx Hl IH]; intros [|k]; simpl; auto.
Qed.

(** A walk that ended keeps its result under any larger budget. *)
Lemma month_walk_more_budget (budget : nat) :
  forall budget' tbl day month r,
    (budget <= budget')%nat ->
    month_walk budget tbl day month = Ok r ->
    month_walk budget' tbl day month = Ok r.
Proof.
  induction budget as [|budget IH]; intros budget' tbl day month r Hle Hw;
    [discriminate|].
  destruct budget' as [|budget']; [lia|].
  simpl in *. destruct (nth_error tbl (Z.to_nat month)) as [d|]; [|discriminate].
  destruct (day >? d); [|assumption].
  apply IH; [lia | assumption].
Qed.

Section MonthWalk.

Variable tbl : list Z.
Hypothesis tbl_nonneg : Forall (fun d => 0 <= d) tbl.
Hypothesis tbl_short : Z.of_nat (List.length tbl) < 4294967296.

Lemma tbl_entry_nonneg k d : nth_error tbl k = Some d -> 0 <= d.
Proof.
  intros Hk. apply nth_error_In in Hk.
  rewrite Forall_forall in tbl_nonneg. now apply tbl_nonneg.
Qed.

Lemma tbl_suffix_nonneg k : 0 <= table_sum (skipn k tbl).
Proof. apply table_sum_nonneg, Forall_suffix, tbl_nonneg. Qed.

Lemma month_step_index k :
  (k < List.length tbl)%nat -> u32 (Z.of_nat k + 1) = Z.of_nat (S k).
Proof. intros Hk. rewrite u32_small; lia. Qed.

(** A day count that the rest of the table covers is placed in the table:
    the walk stops at an index [k'] inside it, having subtracted exactly
    the entries [k .. k'-1]. *)
Lemma month_walk_in_table :
  forall budget k day,
    (k < List.length tbl)%nat -> (List.length tbl - k <= budget)%nat ->
    0 <= day < 65536 -> day <= table_sum (skipn k tbl) ->
    exists k' day',
      month_walk budget tbl day (Z.of_nat k) = Ok (Z.of_nat k', day')
      /\ (k <= k' < List.length tbl)%nat
      /\ day = table_sum (firstn (k' - k) (skipn k tbl)) + day'
      /\ (exists d, nth_error tbl k' = Some d /\ day' <= d)
      /\ (1 <= day -> 1 <= day') /\ 0 <= day'.
Proof.
  induction budget as [|budget IH]; intros k day Hk Hbudget Hday Hsum;
    [lia|].
  simpl. rewrite Nat2Z.id.
  destruct (nth_error tbl k) as [d|] eqn:Hd;
    [|apply nth_error_None in Hd; lia].
  pose proof (tbl_entry_nonneg _ _ Hd) as Hd0.
  rewrite (skipn_nth_error _ _ _ Hd), table_sum_cons in Hsum.
  destruct (Z.gtb_spec day d) as [Hgt|Hle].
  - rewrite u32_small, u16_small by lia.
    assert (Hk' : (S k < List.length tbl)%nat).
    { destruct (Nat.lt_ge_cases (S k) (List.length tbl)) as [|Hge]; [assumption|].
      rewrite (skipn_all2 tbl Hge) in Hsum. cbn in Hsum. lia. }
    rewrite month_step_index by assumption.
    destruct (IH (S k) (day - d)) as (k' & day' & Hw & Hr & Heq & Hent & H1 & H0);
      try lia.
    exists k', day'. repeat split; try lia; try assumption.
    rewrite (skipn_nth_error _ _ _ Hd).
    replace (k' - k)%nat with (S (k' - S k)) by lia.
    cbn [firstn]. rewrite table_sum_cons. lia.
  - exists k, day. rewrite Nat.sub_diag. cbn [firstn table_sum fold_right].
    repeat split; try lia. exists d. split; [assumption | lia].
Qed.

(** A day count larger than what the rest of the table covers walks off
    its end: the loop reads [tbl[length tbl]]. *)
Lemma month_walk_overrun :
  forall budget k day,
    (k <= List.length tbl)%nat -> (List.length tbl - k < budget)%nat ->
    0 <= day < 65536 -> table_sum (skipn k tbl) < day ->
    month_walk budget tbl day (Z.of_nat k)
    = Undefined (TableOverrun (Z.of_nat (List.length tbl))).
Proof.
  induction budget as [|budget IH]; intros k day Hk Hbudget Hday Hsum;
    [lia|].
  simpl. rewrite Nat2Z.id.
  destruct (nth_error tbl k) as [d|] eqn:Hd.
  - assert (Hlt : (k < List.length tbl)%nat)
      by (apply nth_error_Some; congruence).
    pose proof (tbl_entry_nonneg _ _ Hd) as Hd0.
    pose proof (tbl_suffix_nonneg (S k)) as Hrest.
    rewrite (skipn_nth_error _ _ _ Hd), table_sum_cons in Hsum.
    destruct (Z.gtb_spec day d) as [Hgt|Hle]; [|lia].
    rewrite u32_small, u16_small by lia.
    rewrite month_step_index by assumption.
    apply IH; lia.
  - apply nth_error_None in Hd.
    replace k with (List.length tbl) by lia. reflexivity.
Qed.

End MonthWalk.

(** ** The table of a given year *)

Lemma daysInMonths_for_nonneg year :
  Forall (fun d => 0 <= d) (daysInMonths_for year).
Proof.
  unfold daysInMonths_for. destruct (isLeapYear year); cbn;
    repeat constructor; lia.
Qed.

Lemma daysInMonths_for_length year :
  List.length (daysInMonths_for year) = 12%nat.
Proof. unfold daysInMonths_for. now destruct (isLeapYear year). Qed.

Lemma daysInMonths_for_sum year :
  table_sum (daysInMonths_for year) = days_in_year year.
Proof.
  unfold daysInMonths_for, days_in_year. now destruct (isLeapYear year).
Qed.

Lemma daysInMonths_for_entry year k d :
  nth_error (daysInMonths_for year) k = Some d -> 28 <= d <= 31.
Proof.
  unfold daysInMonths_for. intros Hk.
  destruct (isLeapYear year); cbn in Hk;
    do 12 (destruct k as [|k]; [inversion Hk; lia|]); destruct k; discriminate.
Qed.

(** ** The fields of the two packed words *)

Lemma dayOfYear_of_range encodedDate : 0 <= dayOfYear_of encodedDate <= 511.
Proof.
  unfold dayOfYear_of.
  assert (Hm : 0 <= Z.land encodedDate 511 < 512).
  { change 511 with (Z.ones 9). rewrite Z.land_ones by lia.
    apply Z.mod_pos_bound. lia. }
  rewrite u16_small; lia.
Qed.

Lemma yearOffset_of_range encodedDate : 0 <= yearOffset_of encodedDate <= 127.
Proof.
  unfold yearOffset_of.
  assert (Hm : 0 <= Z.land (Z.shiftr encodedDate 9) 127 < 128).
  { change 127 with (Z.ones 7). rewrite Z.land_ones by lia.
    apply Z.mod_pos_bound. lia. }
  rewrite u16_small; lia.
Qed.

Lemma year_of_value encodedDate :
  year_of encodedDate = 2000 + Z.land (Z.shiftr encodedDate 9) 127
  /\ 2000 <= year_of encodedDate <= 2127.
Proof.
  pose proof (yearOffset_of_range encodedDate) as Hy.
  unfold year_of. rewrite u32_small by lia.
  split; [|lia]. unfold yearOffset_of in *.
  assert (Hm : 0 <= Z.land (Z.shiftr encodedDate 9) 127 < 128).
  { change 127 with (Z.ones 7). rewrite Z.land_ones by lia.
    apply Z.mod_pos_bound. lia. }
  rewrite u16_small by lia. lia.
Qed.

Lemma time_fields_range encodedTime :
  0 <= encodedTime < 65536 ->
  hour_of encodedTime = encodedTime / 1800
  /\ 0 <= hour_of encodedTime <= 36
  /\ 0 <= minutes_of encodedTime <= 59
  /\ 0 <= seconds_of encodedTime <= 14.
Proof.
  intros Ht.
  assert (Hh : hour_of encodedTime = encodedTime / 1800).
  { unfold hour_of. apply u32_small. Z.div_mod_to_equations. lia. }
  assert (Hrem : u32 (encodedTime - u32 (hour_of encodedTime * 1800))
                 = encodedTime mod 1800).
  { rewrite Hh. rewrite (u32_small (_ * _)) by (Z.div_mod_to_equations; lia).
    rewrite u32_small by (Z.div_mod_to_equations; lia).
    Z.div_mod_to_equations. lia. }
  unfold seconds_of, minutes_of. rewrite Hrem.
  rewrite (u32_small (_ * 30)) by (Z.div_mod_to_equations; lia).
  rewrite (u32_small (_ - _)) by (Z.div_mod_to_equations; lia).
  repeat split; try (rewrite Hh); Z.div_mod_to_equations; lia.
Qed.

(** ** The format string *)

Lemma fmt_d_year_length :
  all_from (fun y => Nat.eqb (String.length (fmt_d y)) 4) 2000 128 = true.
Proof. vm_compute. reflexivity. Qed.

Lemma fmt_02d_length :
  all_from (fun n => Nat.eqb (String.length (fmt_02d n)) 2) 0 100 = true.
Proof. vm_compute. reflexivity. Qed.

Lemma fmt_d_year year :
  2000 <= year <= 2127 -> String.length (fmt_d year) = 4%nat.
Proof.
  intros Hy. apply Nat.eqb_eq.
  apply (all_from_sound _ _ _ fmt_d_year_length). simpl. lia.
Qed.

Lemma fmt_02d_two n : 0 <= n <= 99 -> String.length (fmt_02d n) = 2%nat.
Proof.
  intros Hn. apply Nat.eqb_eq.
  apply (all_from_sound _ _ _ fmt_02d_length). simpl. lia.
Qed.

Lemma format_timestamp_fits year month day hour minutes seconds :
  2000 <= year <= 2127 -> 0 <= month <= 99 -> 0 <= day <= 99 ->
  0 <= hour <= 99 -> 0 <= minutes <= 99 -> 0 <= seconds <= 99 ->
  format_timestamp year month day hour minutes seconds
  = date_text year month day ++ time_text hour minutes seconds.
Proof.
  intros Hy Hmo Hd Hh Hmi Hs. unfold format_timestamp.
  rewrite !s32_small by lia.
  rewrite snprintf_fits.
  - unfold date_text, time_text. now rewrite !string_app_assoc.
  - rewrite !string_length_app, fmt_d_year, !fmt_02d_two by assumption.
    simpl. lia.
Qed.

(** ** [DecodeDateTime] on a day that lies within the year *)

Lemma leap_year_rule year :
  isLeapYear year = true
  <-> year mod 4 = 0 /\ (year mod 100 <> 0 \/ year mod 400 = 0).
Proof.
  unfold isLeapYear.
  rewrite orb_true_iff, andb_true_iff, negb_true_iff, !Z.eqb_eq, Z.eqb_neq.
  split.
  - intros [[H4 H100]|H400]; split; auto.
    Z.div_mod_to_equations. lia.
  - intros [H4 [H100|H400]]; auto.
Qed.

Lemma month_walk_of_year encodedDate (budget : nat) :
  (12 <= budget)%nat ->
  dayOfYear_of encodedDate <= days_in_year (year_of encodedDate) ->
  exists (months : nat) (remaining : Z),
    month_walk budget (daysInMonths_for (year_of encodedDate))
               (dayOfYear_of encodedDate) 0
    = Ok (Z.of_nat months, remaining)
    /\ (months <= 11)%nat
    /\ dayOfYear_of encodedDate
       = table_sum (firstn months (daysInMonths_for (year_of encodedDate)))
         + remaining
    /\ (exists d,
          nth_error (daysInMonths_for (year_of encodedDate)) months = Some d
          /\ remaining <= d)
    /\ (1 <= dayOfYear_of encodedDate -> 1 <= remaining)
    /\ 0 <= remaining.
Proof.
  intros Hbudget Hday.
  pose proof (dayOfYear_of_range encodedDate) as Hrange.
  set (year := year_of encodedDate) in *.
  destruct (month_walk_in_table (daysInMonths_for year)
              (daysInMonths_for_nonneg year)
              ltac:(rewrite daysInMonths_for_length; simpl; lia)
              budget 0%nat (dayOfYear_of encodedDate))
    as (k & r & Hw & Hk & Hsum & Hent & H1 & H0).
  - rewrite daysInMonths_for_length. lia.
  - rewrite daysInMonths_for_length. lia.
  - lia.
  - cbn [skipn]. now rewrite daysInMonths_for_sum.
  - rewrite daysInMonths_for_length in Hk. rewrite Nat.sub_0_r in Hsum.
    cbn [skipn] in Hsum. exists k, r. repeat split; try assumption; lia.
Qed.

Lemma DecodeDateTime_within_year encodedDate :
  dayOfYear_of encodedDate <= days_in_year (year_of encodedDate) ->
  exists (months : nat) (remaining : Z),
    month_walk walk_budget (daysInMonths_for (year_of encodedDate))
               (dayOfYear_of encodedDate) 0
    = Ok (Z.of_nat months, remaining)
    /\ forall encodedTime,
        0 <= encodedTime < 65536 ->
        DecodeDateTime encodedDate encodedTime
        = Ok (date_text (year_of encodedDate) (Z.of_nat months) remaining
              ++ time_text (hour_of encodedTime) (minutes_of encodedTime)
                           (seconds_of encodedTime)).
Proof.
  intros Hday.
  destruct (month_walk_of_year encodedDate walk_budget
              ltac:(unfold walk_budget; lia) Hday)
    as (k & r & Hw & Hk & Hsum & (d & Hd & Hrd) & _ & H0).
  exists k, r. split; [assumption|]. intros encodedTime Ht.
  unfold DecodeDateTime. rewrite Hw. cbn [bind].
  pose proof (year_of_value encodedDate) as [_ Hy].
  pose proof (time_fields_range encodedTime Ht) as (_ & Hh & Hmi & Hs).
  pose proof (daysInMonths_for_entry _ _ _ Hd) as Hd31.
  rewrite format_timestamp_fits by lia. reflexivity.
Qed.

(** ** [DecodeDateTime] on a day beyond the year *)

Lemma DecodeDateTime_beyond_year encodedDate encodedTime :
  days_in_year (year_of encodedDate) < dayOfYear_of encodedDate ->
  DecodeDateTime encodedDate encodedTime = Undefined (TableOverrun 12).
Proof.
  intros Hday. pose proof (dayOfYear_of_range encodedDate) as Hrange.
  unfold DecodeDateTime.
  set (year := year_of encodedDate) in *.
  pose proof (month_walk_overrun (daysInMonths_for year)
                (daysInMonths_for_nonneg year)
                ltac:(rewrite daysInMonths_for_length; simpl; lia)
                walk_budget 0%nat (dayOfYear_of encodedDate)) as Hover.
  rewrite daysInMonths_for_length in Hover. cbn [skipn] in Hover.
  rewrite daysInMonths_for_sum in Hover.
  change (Z.of_nat 0) with 0 in Hover. change (Z.of_nat 12) with 12 in Hover.
  rewrite Hover; [reflexivity | lia | unfold walk_budget; lia | lia | lia].
Qed.

(** The loop budget of the embedding never runs out: [DecodeDateTime]
    either returns its string or reads past the table. *)
Lemma month_walk_budget_suffices encodedDate encodedTime :
  DecodeDateTime encodedDate encodedTime <> Undefined LoopBudget.
Proof.
  destruct (Z.le_gt_cases (dayOfYear_of encodedDate)
                          (days_in_year (year_of encodedDate))) as [Hin|Hout].
  - destruct (DecodeDateTime_within_year encodedDate Hin)
      as (k & r & Hw & _).
    unfold DecodeDateTime. rewrite Hw. discriminate.
  - rewrite DecodeDateTime_beyond_year by assumption. discriminate.
Qed.

(** C2 (the code departs from it).  Every [encodedDate] whose day-of-year
    field exceeds 366 makes the month loop run through all twelve entries
    and read [daysInMonths[12]], one past the table: no failure is
    reported, the behaviour is undefined. *)
Theorem DecodeDateTime_overlong_day_overruns (encodedDate encodedTime : Z) :
  366 < dayOfYear_of encodedDate ->
  DecodeDateTime encodedDate encodedTime = Undefined (TableOverrun 12).
Proof.
  intros Hday. apply DecodeDateTime_beyond_year.
  unfold days_in_year. destruct (isLeapYear _); lia.
Qed.

Lemma DecodeDateTime_overlong_day_overruns_witness :
  366 < dayOfYear_of 511
  /\ DecodeDateTime 511 0 = Undefined (TableOverrun 12).
Proof.
  assert (H : 366 < dayOfYear_of 511) by reflexivity.
  split; [exact H | exact (DecodeDateTime_overlong_day_overruns 511 0 H)].
Defined.

(** C10.  For a day-of-year field from 1 to 365 (366 in a leap year) the
    month loop is over after at most twelve evaluations of its condition,
    hence at most eleven runs of its body; every read of the table is
    inside it (the walk returns [Ok]), the final index is in 0..11 and the
    remaining day count is at least 1. *)
Theorem month_walk_stays_in_table (encodedDate : Z) :
  1 <= dayOfYear_of encodedDate <= days_in_year (year_of encodedDate) ->
  exists month remaining,
    month_walk 12 (daysInMonths_for (year_of encodedDate))
               (dayOfYear_of encodedDate) 0 = Ok (month, remaining)
    /\ month_walk walk_budget (daysInMonths_for (year_of encodedDate))
                  (dayOfYear_of encodedDate) 0 = Ok (month, remaining)
    /\ 0 <= month <= 11
    /\ 1 <= remaining.
Proof.
  intros [Hlow Hhigh].
  destruct (month_walk_of_year encodedDate 12 (Nat.le_refl _) Hhigh)
    as (k & r & Hw & Hk & Hsum & Hent & H1 & _).
  exists (Z.of_nat k), r.
  split; [exact Hw|]. split.
  - apply (month_walk_more_budget 12); [unfold walk_budget; lia | exact Hw].
  - split; [lia | now apply H1].
Qed.

Lemma month_walk_stays_in_table_witness :
  1 <= dayOfYear_of 1842 <= days_in_year (year_of 1842)
  /\ month_walk 12 (daysInMonths_for (year_of 1842)) (dayOfYear_of 1842) 0
     = Ok (10, 2).
Proof.
  assert (H : 1 <= dayOfYear_of 1842 <= days_in_year (year_of 1842))
    by (vm_compute; split; discriminate).
  split; [exact H|].
  destruct (month_walk_stays_in_table 1842 H) as (month & remaining & Hw & _).
  reflexivity.
Defined.


(** C9.  For a day-of-year field from 1 to 365 (366 in a leap year), the
    day printed in the timestamp is the count [remaining] left after taking
    the lengths of [months] whole months off the day of the year, with
    [1 <= remaining <= daysInMonths[months]]; it is printed as it stands,
    nothing is added to it. *)
Theorem day_field_is_remaining_count (encodedDate encodedTime : Z) :
  0 <= encodedTime < 65536 ->
  1 <= dayOfYear_of encodedDate <= days_in_year (year_of encodedDate) ->
  exists (months : nat) (remaining : Z),
    remaining
    = dayOfYear_of encodedDate
      - table_sum (firstn months (daysInMonths_for (year_of encodedDate)))
    /\ (exists d,
          nth_error (daysInMonths_for (year_of encodedDate)) months = Some d
          /\ 1 <= remaining <= d)
    /\ DecodeDateTime encodedDate encodedTime
       = Ok (fmt_d (year_of encodedDate) ++ "-" ++ fmt_02d (Z.of_nat months)
             ++ "-" ++ fmt_02d remaining
             ++ time_text (hour_of encodedTime) (minutes_of encodedTime)
                          (seconds_of encodedTime)).
Proof.
  intros Ht [Hlow Hhigh].
  destruct (month_walk_of_year encodedDate walk_budget
              ltac:(unfold walk_budget; lia) Hhigh)
    as (k & r & Hw & _ & Hsum & (d & Hd & Hr) & H1 & _).
  destruct (DecodeDateTime_within_year encodedDate Hhigh)
    as (k' & r' & Hw' & Hdec).
  rewrite Hw in Hw'. injection Hw' as Hk' Hr'.
  apply Nat2Z.inj in Hk'. subst k' r'.
  exists k, r. split; [lia|]. split.
  - exists d. split; [assumption|]. split; [now apply H1 | assumption].
  - rewrite (Hdec encodedTime Ht). unfold date_text.
    now rewrite !string_app_assoc.
Qed.

Lemma day_field_is_remaining_count_witness :
  (0 <= 6500 < 65536)
  /\ (1 <= dayOfYear_of 1842 <= days_in_year (year_of 1842))
  /\ DecodeDateTime 1842 6500 = Ok "2003-10-02T03:36:10Z".
Proof.
  assert (Ht : 0 <= 6500 < 65536) by lia.
  assert (Hd : 1 <= dayOfYear_of 1842 <= days_in_year (year_of 1842))
    by (vm_compute; split; discriminate).
  split; [exact Ht|]. split; [exact Hd|].
  destruct (day_field_is_remaining_count 1842 6500 Ht Hd)
    as (months & remaining & _ & _ & Hdec).
  reflexivity.
Defined.

(** C6 (the code departs from it).  The leap-year rule is as claimed: the
    year is 2000 plus the seven-bit field, it is leap exactly when it is
    divisible by 4 and (not divisible by 100 or divisible by 400), and the
    February entry of the table (index 1) is then 29, else 28.  With day of
    the year 60 the walk stops at index 1 with 29 days remaining in a leap
    year and at index 2 with 1 day remaining in any other year.  But the
    month is printed as that index, counted from zero, with nothing added:
    the timestamp carries -01-29 in a leap year and -02-01 otherwise, which
    in a YYYY-MM-DD date read 29 January and 1 February, not 29 February
    and 1 March. *)
Theorem leap_year_rule_day_60 (encodedDate encodedTime : Z) :
  0 <= encodedTime < 65536 ->
  dayOfYear_of encodedDate = 60 ->
  year_of encodedDate = 2000 + Z.land (Z.shiftr encodedDate 9) 127
  /\ (isLeapYear (year_of encodedDate) = true
      <-> (year_of encodedDate) mod 4 = 0
          /\ ((year_of encodedDate) mod 100 <> 0
              \/ (year_of encodedDate) mod 400 = 0))
  /\ nth_error (daysInMonths_for (year_of encodedDate)) 1
     = Some (if isLeapYear (year_of encodedDate) then 29 else 28)
  /\ month_walk walk_budget (daysInMonths_for (year_of encodedDate))
                (dayOfYear_of encodedDate) 0
     = Ok (if isLeapYear (year_of encodedDate) then (1, 29) else (2, 1))
  /\ DecodeDateTime encodedDate encodedTime
     = Ok (date_text (year_of encodedDate)
                     (if isLeapYear (year_of encodedDate) then 1 else 2)
                     (if isLeapYear (year_of encodedDate) then 29 else 1)
           ++ time_text (hour_of encodedTime) (minutes_of encodedTime)
                        (seconds_of encodedTime)).
Proof.
  intros Ht Hday.
  split; [apply year_of_value|]. split; [apply leap_year_rule|].
  assert (Hwalk :
            month_walk walk_budget (daysInMonths_for (year_of encodedDate))
                       (dayOfYear_of encodedDate) 0
            = Ok (if isLeapYear (year_of encodedDate) then (1, 29) else (2, 1))).
  { rewrite Hday. unfold daysInMonths_for.
    destruct (isLeapYear (year_of encodedDate)); reflexivity. }
  split.
  { unfold daysInMonths_for.
    destruct (isLeapYear (year_of encodedDate)); reflexivity. }
  split; [exact Hwalk|].
  destruct (DecodeDateTime_within_year encodedDate) as (k & r & Hw & Hdec).
  { rewrite Hday. unfold days_in_year. destruct (isLeapYear _); lia. }
  rewrite (Hdec encodedTime Ht). rewrite Hw in Hwalk.
  destruct (isLeapYear (year_of encodedDate));
    injection Hwalk as -> ->; reflexivity.
Qed.

Lemma leap_year_rule_day_60_witness :
  (0 <= 0 < 65536)
  /\ dayOfYear_of 12348 = 60 /\ dayOfYear_of 11836 = 60
  /\ DecodeDateTime 12348 0 = Ok "2024-01-29T00:00:00Z"
  /\ DecodeDateTime 11836 0 = Ok "2023-02-01T00:00:00Z".
Proof.
  assert (Ht : 0 <= 0 < 65536) by lia.
  assert (Hleap : dayOfYear_of 12348 = 60) by reflexivity.
  assert (Hcommon : dayOfYear_of 11836 = 60) by reflexivity.
  split; [exact Ht|]. split; [exact Hleap|]. split; [exact Hcommon|].
  destruct (leap_year_rule_day_60 12348 0 Ht Hleap) as (_ & _ & _ & _ & H1).
  destruct (leap_year_rule_day_60 11836 0 Ht Hcommon) as (_ & _ & _ & _ & H2).
  split; [rewrite H1 | rewrite H2]; reflexivity.
Defined.




(** C5, as the code has it.  A time above 43199 is not refused: with a day
    that lies within the year the timestamp is returned, and its hour field
    is [encodedTime / 1800], from 24 to 36. *)
Theorem late_time_is_printed (encodedDate encodedTime : Z) :
  dayOfYear_of encodedDate <= days_in_year (year_of encodedDate) ->
  43199 < encodedTime < 65536 ->
  hour_of encodedTime = encodedTime / 1800
  /\ 24 <= hour_of encodedTime <= 36
  /\ exists date_part,
      DecodeDateTime encodedDate encodedTime
      = Ok (date_part ++ "T" ++ fmt_02d (hour_of encodedTime) ++ ":"
            ++ fmt_02d (minutes_of encodedTime) ++ ":"
            ++ fmt_02d (seconds_of encodedTime) ++ "Z").
Proof.
  intros Hday Ht.
  pose proof (time_fields_range encodedTime ltac:(lia)) as (Hh & Hh36 & _).
  split; [assumption|]. split.
  - rewrite Hh. Z.div_mod_to_equations. lia.
  - destruct (DecodeDateTime_within_year encodedDate Hday)
      as (k & r & _ & Hdec).
    exists (date_text (year_of encodedDate) (Z.of_nat k) r).
    rewrite Hdec by lia. reflexivity.
Qed.

Lemma late_time_is_printed_witness :
  dayOfYear_of 1 <= days_in_year (year_of 1)
  /\ (43199 < 65535 < 65536)
  /\ DecodeDateTime 1 65535 = Ok "2000-00-01T36:24:07Z".
Proof.
  assert (Hd : dayOfYear_of 1 <= days_in_year (year_of 1))
    by (vm_compute; discriminate).
  assert (Ht : 43199 < 65535 < 65536) by lia.
  split; [exact Hd|]. split; [exact Ht|].
  destruct (late_time_is_printed 1 65535 Hd Ht) as (_ & _ & date_part & _).
  reflexivity.
Defined.

(** C5 as it was written does not hold: 43200 ticks come back as a
    timestamp with hour 24, not as a failure. *)
Lemma time_43200_is_printed :
  DecodeDateTime 1 43200 = Ok "2000-00-01T24:00:00Z".
Proof. reflexivity. Qed.

(** ** The payload walk *)

Lemma u16_range z : 0 <= u16 z < 65536.
Proof. unfold u16. apply Z.mod_pos_bound. lia. Qed.

Lemma values_grow {A} (x : A) (l v m : list A) :
  (l = v ++ m -> x :: l = (x :: v) ++ m)%list.
Proof. intros ->. reflexivity. Qed.

Lemma check_passes (c len : Z) : c < len -> (c >=? len) = false.
Proof. intros Hc. destruct (Z.geb_spec c len); [lia | reflexivity]. Qed.

Lemma segment_fits (c len : Z) : c <= len -> (c <=? len) = true.
Proof. intros Hc. now apply Z.leb_le. Qed.

Lemma values_none {A} (m : list A) : (m = [] ++ m)%list.
Proof. reflexivity. Qed.

Lemma explanations_none {A} (l : list A) : (l = l ++ [])%list.
Proof. now rewrite app_nil_r. Qed.

Lemma explanations_grow {A} (e : A) (l old new : list A) :
  (l = old ++ new -> l ++ [e] = old ++ (new ++ [e]))%list.
Proof. intros ->. now rewrite app_assoc. Qed.

Section DriverProperties.

Variable renderJsonOnlyDefaultUnit : Meter -> string -> Quantity -> string.

(** C8.  Without a manufacturer-data section ([mfct_0f_index == -1])
    the decoder returns at once: the telegram, with its explanations, and
    the meter come back as they were. *)
Theorem no_mfct_data_is_a_no_op (t : Telegram) (m : Meter) :
  mfct_0f_index t = -1 ->
  processContent renderJsonOnlyDefaultUnit t m = Ok (t, m).
Proof.
  intros Hidx. unfold processContent. rewrite Hidx. reflexivity.
Qed.

Ltac settle_check len :=
  match goal with
  | |- context [Z.geb ?a len] =>
      destruct (Z.geb_spec a len); try (exfalso; lia)
  | |- context [Z.leb ?a len] =>
      destruct (Z.leb_spec a len); try (exfalso; lia)
  end.

Ltac walk_payload len :=
  repeat first
    [ progress cbn -[DecodeDateTime toIndicationU toTemperature fmt_02X fmt_d
                     u16 Z.lor Z.shiftl uchar_val String.append
                     Z.geb Z.leb Z.add]
    | progress cbn [Z.add Pos.add Pos.succ]
    | progress cbv [byte_at payload_byte Z.to_nat Pos.to_nat Pos.iter_op
                    Nat.add nth_error]
    | progress unfold fits, addSpecialExplanation, setNumericValue
    | settle_check len ].

Ltac walk_known :=
  repeat first
    [ progress cbn -[DecodeDateTime toIndicationU toTemperature fmt_02X fmt_d
                     u16 Z.lor Z.shiftl uchar_val String.append]
    | progress cbv [byte_at payload_byte Z.to_nat Pos.to_nat Pos.iter_op
                    Nat.add nth_error]
    | progress unfold fits, addSpecialExplanation, setNumericValue ].

Ltac give_witnesses :=
  do 2 eexists; split;
  [ apply f_equal; apply f_equal2;
    [ apply f_equal;
      repeat (apply explanations_grow); apply explanations_none
    | repeat (apply values_grow); apply values_none ]
  | ].

(** Whatever the length of the payload, the segments decoded are the
    ones before the first that does not fit, as long as the date segment
    can be placed in its year. *)
Lemma processContent_decodes_fitting_prefix (t : Telegram) (m : Meter) :
  mfct_0f_index t <> -1 ->
  date_within_year (mfct_data t) ->
  exists new_explanations new_values,
    processContent renderJsonOnlyDefaultUnit t m
    = Ok (mkTelegram (header_size t) (mfct_0f_index t) (mfct_data t)
                     (explanations t ++ new_explanations)%list,
          (new_values ++ m)%list)
    /\ map (fun e => (ex_pos e, ex_len e)) new_explanations
       = map (fun s => (seg_offset s + (header_size t + mfct_0f_index t), 2))
             (fitting_prefix (Z.of_nat (List.length (mfct_data t))) segments)
    /\ rev new_values
       = values_of (mfct_data t)
           (fitting_prefix (Z.of_nat (List.length (mfct_data t))) segments).
Proof.
  destruct t as [hs idx bytes exs]. cbn [mfct_0f_index mfct_data header_size explanations].
  intros Hidx Hdate. unfold processContent.
  cbn [mfct_0f_index mfct_data header_size explanations].
  destruct (Z.eqb_spec idx (-1)) as [|_]; [contradiction|].
  remember (Z.of_nat (List.length bytes)) as len eqn:Hlen.
  do 8 (destruct bytes as [|? bytes];
        [ subst len; walk_known; give_witnesses; split; reflexivity | ]).
  match type of Hdate with
  | date_within_year (_ :: _ :: _ :: _ :: ?t0 :: ?t1 :: ?d0 :: ?d1 :: _) =>
      specialize (Hdate d0 d1 ltac:(cbn [List.length]; lia) eq_refl eq_refl);
      destruct (DecodeDateTime_within_year _ Hdate) as (k & r & _ & Hdec);
      specialize (Hdec (le16 t0 t1) (u16_range _));
      unfold le16 in Hdec
  end.
  do 8 (destruct bytes as [|? bytes];
        [ subst len; walk_known; rewrite Hdec; walk_known;
          give_witnesses; split; reflexivity | ]).
  assert (Hlong : 16 <= len) by (cbn [List.length] in Hlen; lia).
  clear Hlen. cbv zeta. unfold fitting_prefix, segments, fits.
  cbn [seg_offset seg_size].
  rewrite !(check_passes _ len) by lia.
  rewrite !(segment_fits _ len) by lia.
  walk_known; rewrite Hdec; walk_known.
  give_witnesses; split; reflexivity.
Qed.

End DriverProperties.

(** ** Concrete runs *)

Lemma no_mfct_data_is_a_no_op_witness :
  mfct_0f_index (mkTelegram 10 (-1) scenario_payload []) = -1
  /\ processContent (fun _ name _ => name)
                    (mkTelegram 10 (-1) scenario_payload []) []
     = Ok (mkTelegram 10 (-1) scenario_payload [], []).
Proof.
  assert (H : mfct_0f_index (mkTelegram 10 (-1) scenario_payload []) = -1)
    by reflexivity.
  split; [exact H|].
  exact (no_mfct_data_is_a_no_op (fun _ name _ => name) _ [] H).
Defined.

(** C1, as the code has it.  For a payload of 0 to 13 bytes whose date
    segment, when all of it is there, carries a day that lies within its
    year, the decoder returns normally; the explanations it adds are, in
    order, those of the segments before the first one that does not fit
    (each at the segment's offset from the base, with length 2), and the
    numeric fields it writes are exactly the fields of those segments, each
    with the value its scalar decoder gives on the segment's two bytes.
    Nothing is added or written for a segment that does not fit. *)
Theorem payload_prefix_decoded
        (renderJsonOnlyDefaultUnit : Meter -> string -> Quantity -> string)
        (t : Telegram) (m : Meter) :
  mfct_0f_index t <> -1 ->
  (List.length (mfct_data t) <= 13)%nat ->
  date_within_year (mfct_data t) ->
  exists new_explanations new_values,
    processContent renderJsonOnlyDefaultUnit t m
    = Ok (mkTelegram (header_size t) (mfct_0f_index t) (mfct_data t)
                     (explanations t ++ new_explanations)%list,
          (new_values ++ m)%list)
    /\ map (fun e => (ex_pos e, ex_len e)) new_explanations
       = map (fun s => (seg_offset s + (header_size t + mfct_0f_index t), 2))
             (fitting_prefix (Z.of_nat (List.length (mfct_data t))) segments)
    /\ rev new_values
       = values_of (mfct_data t)
           (fitting_prefix (Z.of_nat (List.length (mfct_data t))) segments).
Proof.
  intros Hidx _ Hdate.
  now apply processContent_decodes_fitting_prefix.
Qed.

Lemma payload_prefix_decoded_witness :
  exists new_explanations new_values,
    processContent (fun _ name _ => name) scenario_telegram []
    = Ok (mkTelegram 0 0 scenario_payload new_explanations, new_values)
    /\ map (fun e => (ex_pos e, ex_len e)) new_explanations
       = [(0, 2); (2, 2); (4, 2); (8, 2); (10, 2)]
    /\ rev new_values
       = [ ("previous_consumption", Unit_HCA, toIndicationU 3 232);
           ("previous_average_ambient_temperature", Unit_C,
            toTemperature 39 15) ].
Proof.
  destruct (payload_prefix_decoded (fun _ name _ => name) scenario_telegram []
              ltac:(discriminate) ltac:(cbn; lia)
              ltac:(intros lo hi _ Hlo Hhi; injection Hlo as <-;
                    injection Hhi as <-; vm_compute; discriminate))
    as (new_explanations & new_values & Hrun & Hex & Hfields).
  exists new_explanations, new_values.
  rewrite app_nil_r in Hrun. split; [exact Hrun|].
  split; [exact Hex | exact Hfields].
Defined.

(** C1 as it was written does not hold: on the eight-byte payload
    00 00 00 00 00 00 FF 01 three segments fit, yet the decoder has no
    result at all, since the date walk leaves the month table. *)
Lemma overlong_day_payload_is_not_decoded :
  ~ exists render t' m',
      processContent render (mkTelegram 0 0 overlong_day_payload []) []
      = Ok (t', m').
Proof.
  intros (render & t' & m' & H). vm_compute in H. discriminate H.
Qed.

Lemma scenario_run
      (renderJsonOnlyDefaultUnit : Meter -> string -> Quantity -> string) :
  let previous_consumption :=
    ("previous_consumption", Unit_HCA,
     S754_finite false 7036874417766400 (-46)) in
  let previous_temperature :=
    ("previous_average_ambient_temperature", Unit_C,
     S754_finite false 7036170730324623 (-46)) in
  processContent renderJsonOnlyDefaultUnit scenario_telegram []
  = Ok (mkTelegram 0 0 scenario_payload
          [ mkExplanation 0 2 CONTENT FULL "*** 0200 num measurements 2";
            mkExplanation 2 2 CONTENT FULL "*** 0000 status";
            mkExplanation 4 2 CONTENT FULL
              "*** 64193207 device date (2003-10-02T03:36:10Z)";
            mkExplanation 8 2 CONTENT FULL
              ("*** E803 ("
               ++ renderJsonOnlyDefaultUnit [previous_consumption]
                    "previous_consumption" Quantity_HCA
               ++ ")");
            mkExplanation 10 2 CONTENT FULL
              ("*** 0F27 ("
               ++ renderJsonOnlyDefaultUnit
                    [previous_temperature; previous_consumption]
                    "previous_average_ambient_temperature"
                    Quantity_Temperature
               ++ ")") ],
        [previous_temperature; previous_consumption]).
Proof. vm_compute. reflexivity. Qed.

(** C7, as the code has it.  On the payload
    02 00 00 00 64 19 32 07 E8 03 0F 27 10 with base offset 0 the decoder
    explains the measurement count 2 at offset 0, the status at offset 2
    and the date/time at offset 4, each with length 2; the time word is
    0x1964 and the date word 0x0732, the second byte of each pair being the
    high one.  Five bytes are left, so two value fields are decoded:
    previous_consumption (E8 03, 100.0) at offset 8 and
    previous_average_ambient_temperature (0F 27, 99.99) at offset 10.  The
    last byte is not enough for a segment: current_consumption and
    average_ambient_temperature stay unset. *)
Theorem scenario_decodes_two_values :
  forall renderJsonOnlyDefaultUnit : Meter -> string -> Quantity -> string,
  le16 x64 x19 = 6500 /\ le16 x32 x07 = 1842
  /\ DecodeDateTime 1842 6500 = Ok "2003-10-02T03:36:10Z"
  /\ exists t' m',
      processContent renderJsonOnlyDefaultUnit scenario_telegram []
      = Ok (t', m')
      /\ map (fun e => (ex_pos e, ex_len e)) (explanations t')
         = [(0, 2); (2, 2); (4, 2); (8, 2); (10, 2)]
      /\ map ex_info (firstn 3 (explanations t'))
         = [ "*** 0200 num measurements 2"; "*** 0000 status";
             "*** 64193207 device date (2003-10-02T03:36:10Z)" ]
      /\ getNumericValue m' "previous_consumption"
         = Some (S754_finite false 7036874417766400 (-46))
      /\ getNumericValue m' "previous_average_ambient_temperature"
         = Some (S754_finite false 7036170730324623 (-46))
      /\ getNumericValue m' "current_consumption" = None
      /\ getNumericValue m' "average_ambient_temperature" = None.
Proof.
  intros render.
  split; [reflexivity|]. split; [reflexivity|]. split; [reflexivity|].
  eexists. eexists. split; [apply scenario_run|].
  repeat split; reflexivity.
Qed.

(** C7 as it was written does not hold: previous_consumption is not the
    only value field decoded. *)
Lemma scenario_also_sets_previous_temperature :
  ~ forall render t' m',
      processContent render scenario_telegram [] = Ok (t', m') ->
      getNumericValue m' "previous_average_ambient_temperature" = None.
Proof.
  intros H.
  specialize (H (fun _ name _ => name) _ _ (scenario_run _)).
  discriminate H.
Qed.

(** * Further properties of the decoders *)

(** ** [DecodeDateTime]: when it returns and what it returns *)

(** X4.  [DecodeDateTime] returns a timestamp exactly when the day-of-year
    field does not exceed the length of the year (365, or 366 in a leap
    year); in every other case, day 366 of a common year included, the month
    loop reads [daysInMonths[12]]. *)
Theorem DecodeDateTime_returns_iff (encodedDate encodedTime : Z) :
  ((exists s, DecodeDateTime encodedDate encodedTime = Ok s)
   <-> dayOfYear_of encodedDate <= days_in_year (year_of encodedDate))
  /\ (days_in_year (year_of encodedDate) < dayOfYear_of encodedDate
      <-> DecodeDateTime encodedDate encodedTime = Undefined (TableOverrun 12)).
Proof.
  destruct (Z.le_gt_cases (dayOfYear_of encodedDate)
                          (days_in_year (year_of encodedDate))) as [Hin|Hout].
  - destruct (month_walk_of_year encodedDate walk_budget
                ltac:(unfold walk_budget; lia) Hin) as (k & r & Hw & _).
    assert (Hok : exists s, DecodeDateTime encodedDate encodedTime = Ok s).
    { unfold DecodeDateTime. rewrite Hw. cbn [bind]. eexists. reflexivity. }
    split; split; intros H; try assumption; try lia.
    destruct Hok as [s Hs]. rewrite Hs in H. discriminate H.
  - pose proof (DecodeDateTime_beyond_year encodedDate encodedTime Hout) as Hbad.
    split; split; intros H; try assumption; try lia.
    destruct H as [s Hs]. rewrite Hbad in Hs. discriminate Hs.
Qed.

Lemma fmt_02d_digits :
  all_from (fun n => all_digits (fmt_02d n)) 0 100 = true.
Proof. vm_compute. reflexivity. Qed.

Lemma fmt_d_year_digits :
  all_from (fun y => all_digits (fmt_d y)) 2000 128 = true.
Proof. vm_compute. reflexivity. Qed.

(** X5.  Whenever [DecodeDateTime] returns, the 30-byte buffer has cut
    nothing off: the timestamp has exactly 20 characters, four digits for
    the year and two digits for each of month, day, hour, minute and second,
    with the separators of ["%d-%02d-%02dT%02d:%02d:%02dZ"] between them. *)
Theorem timestamp_shape (encodedDate encodedTime : Z) (s : string) :
  0 <= encodedTime < 65536 ->
  DecodeDateTime encodedDate encodedTime = Ok s ->
  String.length s = 20%nat
  /\ exists year month day hour minute second,
      s = year ++ "-" ++ month ++ "-" ++ day ++ "T" ++ hour ++ ":" ++ minute
          ++ ":" ++ second ++ "Z"
      /\ String.length year = 4%nat
      /\ map String.length [month; day; hour; minute; second]
         = [2; 2; 2; 2; 2]%nat
      /\ forallb all_digits [year; month; day; hour; minute; second] = true.
Proof.
  intros Ht Hs.
  destruct (Z.le_gt_cases (dayOfYear_of encodedDate)
                          (days_in_year (year_of encodedDate))) as [Hin|Hout];
    [|rewrite DecodeDateTime_beyond_year in Hs by assumption; discriminate Hs].
  destruct (month_walk_of_year encodedDate walk_budget
              ltac:(unfold walk_budget; lia) Hin)
    as (k & r & Hw & Hk & _ & (d & Hd & Hrd) & _ & Hr0).
  destruct (DecodeDateTime_within_year encodedDate Hin)
    as (k' & r' & Hw' & Hdec).
  rewrite Hw in Hw'. injection Hw' as Hk' Hr'. apply Nat2Z.inj in Hk'.
  subst k' r'. rewrite (Hdec encodedTime Ht) in Hs. injection Hs as <-.
  pose proof (year_of_value encodedDate) as [_ Hy].
  pose proof (time_fields_range encodedTime Ht) as (_ & Hh & Hmi & Hse).
  pose proof (daysInMonths_for_entry _ _ _ Hd) as Hd31.
  assert (Hdig : forall n, 0 <= n <= 99 -> all_digits (fmt_02d n) = true).
  { intros n Hn. apply (all_from_sound _ _ _ fmt_02d_digits). simpl. lia. }
  assert (Hydig : all_digits (fmt_d (year_of encodedDate)) = true).
  { apply (all_from_sound _ _ _ fmt_d_year_digits). simpl. lia. }
  split.
  - unfold date_text, time_text.
    rewrite !string_length_app, fmt_d_year, !fmt_02d_two by lia. reflexivity.
  - exists (fmt_d (year_of encodedDate)), (fmt_02d (Z.of_nat k)), (fmt_02d r),
      (fmt_02d (hour_of encodedTime)), (fmt_02d (minutes_of encodedTime)),
      (fmt_02d (seconds_of encodedTime)).
    split; [|split; [|split]].
    + unfold date_text, time_text. now rewrite !string_app_assoc.
    + apply fmt_d_year. lia.
    + cbn [map]. rewrite !fmt_02d_two by lia. reflexivity.
    + cbn [forallb]. rewrite Hydig, !Hdig by lia. reflexivity.
Qed.

Lemma timestamp_shape_witness :
  (0 <= 6500 < 65536)
  /\ DecodeDateTime 1842 6500 = Ok "2003-10-02T03:36:10Z"
  /\ String.length "2003-10-02T03:36:10Z" = 20%nat.
Proof.
  assert (Ht : 0 <= 6500 < 65536) by lia.
  assert (Hs : DecodeDateTime 1842 6500 = Ok "2003-10-02T03:36:10Z")
    by reflexivity.
  split; [exact Ht|]. split; [exact Hs|].
  exact (proj1 (timestamp_shape 1842 6500 _ Ht Hs)).
Defined.

(** X6.  The three time fields split the tick count exactly, up to its
    lowest bit: [encodedTime = 1800*hour + 30*minutes + 2*seconds + b] with
    [b] the parity of [encodedTime].  Minutes stay below 60 and seconds
    never exceed 14; the hour is below 24 exactly when the tick count is at
    most 43199. *)
Theorem time_fields_split (encodedTime : Z) :
  0 <= encodedTime < 65536 ->
  encodedTime
  = 1800 * hour_of encodedTime + 30 * minutes_of encodedTime
    + 2 * seconds_of encodedTime + encodedTime mod 2
  /\ 0 <= minutes_of encodedTime <= 59
  /\ 0 <= seconds_of encodedTime <= 14
  /\ (hour_of encodedTime <= 23 <-> encodedTime <= 43199).
Proof.
  intros Ht.
  assert (Hh : hour_of encodedTime = encodedTime / 1800).
  { unfold hour_of. apply u32_small. Z.div_mod_to_equations. lia. }
  assert (Hrem : u32 (encodedTime - u32 (hour_of encodedTime * 1800))
                 = encodedTime mod 1800).
  { rewrite Hh. rewrite (u32_small (_ * _)) by (Z.div_mod_to_equations; lia).
    rewrite u32_small by (Z.div_mod_to_equations; lia).
    Z.div_mod_to_equations. lia. }
  assert (Hm : minutes_of encodedTime = encodedTime mod 1800 / 30).
  { unfold minutes_of. now rewrite Hrem. }
  assert (Hs : seconds_of encodedTime
               = (encodedTime mod 1800 - encodedTime mod 1800 / 30 * 30) / 2).
  { unfold seconds_of. rewrite Hrem, Hm.
    rewrite (u32_small (_ * 30)) by (Z.div_mod_to_equations; lia).
    rewrite u32_small by (Z.div_mod_to_equations; lia). reflexivity. }
  rewrite Hh, Hm, Hs. Z.div_mod_to_equations. lia.
Qed.

Lemma time_fields_split_witness :
  (0 <= 1799 < 65536)
  /\ hour_of 1799 = 0 /\ minutes_of 1799 = 59 /\ seconds_of 1799 = 14
  /\ 1799 = 1800 * hour_of 1799 + 30 * minutes_of 1799
            + 2 * seconds_of 1799 + 1799 mod 2.
Proof.
  assert (Ht : 0 <= 1799 < 65536) by lia.
  split; [exact Ht|].
  repeat (split; [reflexivity|]).
  exact (proj1 (time_fields_split 1799 Ht)).
Defined.

(** ** The month walk inverts the day count *)

Lemma prefix_sum_step (l : list Z) :
  forall k d, nth_error l k = Some d ->
  table_sum (firstn (S k) l) = table_sum (firstn k l) + d.
Proof.
  induction l as [|x l IH]; intros [|k] d Hd; simpl in Hd; try discriminate.
  - injection Hd as ->. cbn. lia.
  - rewrite !firstn_cons, !table_sum_cons, (IH k d Hd). lia.
Qed.

Lemma prefix_sum_mono (l : list Z) :
  Forall (fun d => 0 <= d) l ->
  forall k k', (k <= k')%nat ->
  table_sum (firstn k l) <= table_sum (firstn k' l).
Proof.
  induction 1 as [|x l Hx Hl IH]; intros k k' Hk.
  - rewrite !firstn_nil. lia.
  - destruct k as [|k]; destruct k' as [|k']; try lia;
      rewrite ?firstn_cons, ?firstn_O, ?table_sum_cons.
    + specialize (IH 0%nat k' ltac:(lia)). rewrite firstn_O in IH.
      change (table_sum []) with 0 in *. lia.
    + specialize (IH k k' ltac:(lia)). lia.
Qed.

(** X7.  The month walk undoes the day count: for a month index [k] of the
    year's table and a day [d] from 1 to the length of that month, the
    day of the year "lengths of the first [k] months plus [d]" is walked
    back to exactly [(k, d)]. *)
Theorem month_walk_inverts_day_count
        (encodedDate : Z) (k : nat) (days d : Z) :
  nth_error (daysInMonths_for (year_of encodedDate)) k = Some days ->
  1 <= d <= days ->
  dayOfYear_of encodedDate
  = table_sum (firstn k (daysInMonths_for (year_of encodedDate))) + d ->
  month_walk walk_budget (daysInMonths_for (year_of encodedDate))
             (dayOfYear_of encodedDate) 0
  = Ok (Z.of_nat k, d).
Proof.
  intros Hk Hd Hday.
  set (tbl := daysInMonths_for (year_of encodedDate)) in *.
  pose proof (daysInMonths_for_nonneg (year_of encodedDate)) as Hnn.
  fold tbl in Hnn.
  assert (Hklt : (k < List.length tbl)%nat)
    by (apply nth_error_Some; congruence).
  assert (Hin : dayOfYear_of encodedDate
                <= days_in_year (year_of encodedDate)).
  { rewrite <- daysInMonths_for_sum. fold tbl.
    pose proof (prefix_sum_mono tbl Hnn (S k) (List.length tbl) ltac:(lia))
      as Hm.
    rewrite (prefix_sum_step tbl k days Hk), firstn_all in Hm. lia. }
  destruct (month_walk_of_year encodedDate walk_budget
              ltac:(unfold walk_budget; lia) Hin)
    as (k' & r & Hw & _ & Hsum & (days' & Hk' & Hr) & H1 & _).
  fold tbl in Hw, Hsum, Hk'. rewrite Hw.
  pose proof (prefix_sum_mono tbl Hnn 0 k ltac:(lia)) as Hpre.
  rewrite firstn_O in Hpre. change (table_sum []) with 0 in Hpre.
  specialize (H1 ltac:(lia)).
  assert (k' = k).
  { destruct (Nat.lt_trichotomy k k') as [Hlt|[Heq|Hgt]]; [|now subst|].
    - pose proof (prefix_sum_mono tbl Hnn (S k) k' ltac:(lia)) as Hm.
      rewrite (prefix_sum_step tbl k days Hk) in Hm. lia.
    - pose proof (prefix_sum_mono tbl Hnn (S k') k ltac:(lia)) as Hm.
      rewrite (prefix_sum_step tbl k' days' Hk') in Hm. lia. }
  subst k'. f_equal. f_equal. lia.
Qed.

Lemma month_walk_inverts_day_count_witness :
  nth_error (daysInMonths_for (year_of 12348)) 1 = Some 29
  /\ (1 <= 29 <= 29)
  /\ month_walk walk_budget (daysInMonths_for (year_of 12348))
                (dayOfYear_of 12348) 0 = Ok (1, 29).
Proof.
  assert (Hk : nth_error (daysInMonths_for (year_of 12348)) 1 = Some 29)
    by reflexivity.
  assert (Hd : 1 <= 29 <= 29) by lia.
  split; [exact Hk|]. split; [exact Hd|].
  exact (month_walk_inverts_day_count 12348 1 29 29 Hk Hd eq_refl).
Defined.

(** X8.  A day-of-year field of zero is not refused: the loop body never
    runs and the timestamp carries month 00 and day 00. *)
Theorem zero_day_prints_zero_month_and_day (encodedDate encodedTime : Z) :
  0 <= encodedTime < 65536 ->
  dayOfYear_of encodedDate = 0 ->
  month_walk walk_budget (daysInMonths_for (year_of encodedDate))
             (dayOfYear_of encodedDate) 0 = Ok (0, 0)
  /\ DecodeDateTime encodedDate encodedTime
     = Ok (fmt_d (year_of encodedDate) ++ "-00-00"
           ++ time_text (hour_of encodedTime) (minutes_of encodedTime)
                        (seconds_of encodedTime)).
Proof.
  intros Ht Hday.
  assert (Hwalk : month_walk walk_budget (daysInMonths_for (year_of encodedDate))
                             (dayOfYear_of encodedDate) 0 = Ok (0, 0)).
  { rewrite Hday. unfold daysInMonths_for.
    destruct (isLeapYear (year_of encodedDate)); reflexivity. }
  split; [exact Hwalk|].
  destruct (DecodeDateTime_within_year encodedDate) as (k & r & Hw & Hdec).
  { rewrite Hday. unfold days_in_year. destruct (isLeapYear _); lia. }
  rewrite (Hdec encodedTime Ht). rewrite Hw in Hwalk.
  injection Hwalk as Hk ->. rewrite Hk.
  unfold date_text. rewrite !string_app_assoc. reflexivity.
Qed.

Lemma zero_day_prints_zero_month_and_day_witness :
  (0 <= 0 < 65536) /\ dayOfYear_of 512 = 0
  /\ DecodeDateTime 512 0 = Ok "2001-00-00T00:00:00Z".
Proof.
  assert (Ht : 0 <= 0 < 65536) by lia.
  assert (Hd : dayOfYear_of 512 = 0) by reflexivity.
  split; [exact Ht|]. split; [exact Hd|].
  rewrite (proj2 (zero_day_prints_zero_month_and_day 512 0 Ht Hd)).
  reflexivity.
Defined.

(** ** [processContent] on every telegram *)

Lemma date_within_year_short (bytes : list uchar) :
  (List.length bytes < 8)%nat -> date_within_year bytes.
Proof. intros Hlen lo hi Hlong. lia. Qed.

Lemma date_within_year_long b0 b1 b2 b3 b4 b5 lo hi rest :
  date_within_year (b0 :: b1 :: b2 :: b3 :: b4 :: b5 :: lo :: hi :: rest)
  <-> dayOfYear_of (le16 lo hi) <= days_in_year (year_of (le16 lo hi)).
Proof.
  split.
  - intros H. apply H; [cbn [List.length]; lia | reflexivity | reflexivity].
  - intros H lo' hi' _ Hlo Hhi. injection Hlo as <-. injection Hhi as <-.
    exact H.
Qed.

Section EveryTelegram.

Variable renderJsonOnlyDefaultUnit : Meter -> string -> Quantity -> string.

(** With eight bytes or more and a day beyond the year, the walk ends in
    the third segment, inside [DecodeDateTime]. *)
Lemma processContent_beyond_year (t : Telegram) (m : Meter)
      b0 b1 b2 b3 b4 b5 lo hi rest :
  mfct_0f_index t <> -1 ->
  mfct_data t = b0 :: b1 :: b2 :: b3 :: b4 :: b5 :: lo :: hi :: rest ->
  days_in_year (year_of (le16 lo hi)) < dayOfYear_of (le16 lo hi) ->
  processContent renderJsonOnlyDefaultUnit t m = Undefined (TableOverrun 12).
Proof.
  destruct t as [hs idx bytes exs].
  cbn [mfct_0f_index mfct_data]. intros Hidx -> Hbad.
  pose proof (DecodeDateTime_beyond_year (le16 lo hi) (le16 b4 b5) Hbad)
    as Hdec.
  unfold le16 in Hdec. unfold processContent.
  cbn [mfct_0f_index mfct_data header_size explanations].
  destruct (Z.eqb_spec idx (-1)) as [|_]; [contradiction|].
  remember (Z.of_nat (List.length
              (b0 :: b1 :: b2 :: b3 :: b4 :: b5 :: lo :: hi :: rest)))
    as len eqn:Hlen.
  assert (Hlong : 8 <= len) by (cbn [List.length] in Hlen; lia).
  clear Hlen. cbv zeta.
  rewrite (check_passes (0 + 1) len), (check_passes (0 + 2 + 1) len),
    (check_passes (0 + 2 + 2 + 3) len) by lia.
  cbv beta iota delta [bind byte_at nth_error Z.to_nat Pos.to_nat Pos.iter_op
                         Nat.add Z.add Pos.add Pos.succ].
  rewrite Hdec. reflexivity.
Qed.

(** A run either returns, or stops inside [DecodeDateTime]. *)
Lemma processContent_outcome (t : Telegram) (m : Meter) :
  ((date_within_year (mfct_data t) \/ mfct_0f_index t = -1)
   /\ exists t' m',
        processContent renderJsonOnlyDefaultUnit t m = Ok (t', m'))
  \/ (~ date_within_year (mfct_data t) /\ mfct_0f_index t <> -1
      /\ processContent renderJsonOnlyDefaultUnit t m
         = Undefined (TableOverrun 12)).
Proof.
  destruct (Z.eq_dec (mfct_0f_index t) (-1)) as [Hnone|Hsome].
  - left. split; [now right|]. exists t, m.
    unfold processContent. rewrite Hnone. reflexivity.
  - assert (Hgood : date_within_year (mfct_data t) ->
                    exists t' m',
                      processContent renderJsonOnlyDefaultUnit t m
                      = Ok (t', m')).
    { intros Hdate.
      destruct (processContent_decodes_fitting_prefix
                  renderJsonOnlyDefaultUnit t m Hsome Hdate)
        as (ne & nv & Hrun & _).
      rewrite Hrun. eexists. eexists. reflexivity. }
    destruct (mfct_data t) as [|b0 [|b1 [|b2 [|b3 [|b4 [|b5 [|lo [|hi rest]]]]]]]]
      eqn:Hdata;
      try (left; split; [left|apply Hgood];
           apply date_within_year_short; cbn [List.length]; lia).
    destruct (Z.le_gt_cases (dayOfYear_of (le16 lo hi))
                            (days_in_year (year_of (le16 lo hi))))
      as [Hin|Hout].
    + left. split; [left|apply Hgood]; now apply date_within_year_long.
    + right. split; [|split; [assumption|]].
      * rewrite date_within_year_long. lia.
      * now apply (processContent_beyond_year t m b0 b1 b2 b3 b4 b5 lo hi rest).
Qed.

(** X1.  Whatever the telegram, [processContent] never reads a payload byte
    that is not there, and the loop budget of the embedding is never what
    stops it: a run that does not return has stopped in [DecodeDateTime],
    on the read of [daysInMonths[12]]. *)
Theorem processContent_reads_inside_payload (t : Telegram) (m : Meter) :
  forall f, processContent renderJsonOnlyDefaultUnit t m = Undefined f ->
            f = TableOverrun 12.
Proof.
  intros f Hf.
  destruct (processContent_outcome t m)
    as [(_ & t' & m' & Hok)|(_ & _ & Hbad)]; rewrite Hf in *;
    [discriminate Hok | now injection Hbad].
Qed.

(** X2.  [processContent] returns exactly when the telegram has no
    manufacturer data, or its payload is shorter than eight bytes, or the
    day-of-year in bytes 6 and 7 lies within the year. *)
Theorem processContent_returns_iff (t : Telegram) (m : Meter) :
  (exists t' m', processContent renderJsonOnlyDefaultUnit t m = Ok (t', m'))
  <-> mfct_0f_index t = -1 \/ date_within_year (mfct_data t).
Proof.
  destruct (processContent_outcome t m)
    as [(Hcase & Hok)|(Hnot & Hidx & Hbad)].
  - split; [intros _; tauto | intros _; exact Hok].
  - split.
    + intros (t' & m' & Hok). rewrite Hbad in Hok. discriminate Hok.
    + intros [Hnone|Hdate]; contradiction.
Qed.

Lemma fitting_prefix_all (len : Z) :
  16 <= len -> fitting_prefix len segments = segments.
Proof.
  intros Hlen. unfold segments. cbn [fitting_prefix]. unfold fits.
  cbn [seg_offset seg_size]. rewrite !(segment_fits _ len) by lia.
  reflexivity.
Qed.

(** X3.  A payload of sixteen bytes or more whose date lies within its year
    is decoded in full: seven explanations, at offsets 0, 2, 4, 8, 10, 12
    and 14 from the base, and the four numeric fields, each from the byte
    pair at its offset read low byte first.  Bytes after the sixteenth are
    not looked at. *)
Theorem full_payload_decodes_every_segment (t : Telegram) (m : Meter) :
  mfct_0f_index t <> -1 ->
  (16 <= List.length (mfct_data t))%nat ->
  date_within_year (mfct_data t) ->
  let base := header_size t + mfct_0f_index t in
  let byte := payload_byte (mfct_data t) in
  exists new_explanations,
    processContent renderJsonOnlyDefaultUnit t m
    = Ok (mkTelegram (header_size t) (mfct_0f_index t) (mfct_data t)
                     (explanations t ++ new_explanations)%list,
          ("average_ambient_temperature", Unit_C,
           toTemperature (byte 15) (byte 14))
          :: ("current_consumption", Unit_HCA,
              toIndicationU (byte 13) (byte 12))
          :: ("previous_average_ambient_temperature", Unit_C,
              toTemperature (byte 11) (byte 10))
          :: ("previous_consumption", Unit_HCA,
              toIndicationU (byte 9) (byte 8))
          :: m)
    /\ map (fun e => (ex_pos e, ex_len e)) new_explanations
       = [ (0 + base, 2); (2 + base, 2); (4 + base, 2); (8 + base, 2);
           (10 + base, 2); (12 + base, 2); (14 + base, 2) ].
Proof.
  intros Hidx Hlen Hdate base byte.
  destruct (processContent_decodes_fitting_prefix
              renderJsonOnlyDefaultUnit t m Hidx Hdate)
    as (ne & nv & Hrun & Hex & Hval).
  rewrite fitting_prefix_all in Hex, Hval by lia.
  apply (f_equal (@rev _)) in Hval. rewrite rev_involutive in Hval.
  exists ne. split; [|exact Hex].
  rewrite Hrun, Hval. reflexivity.
Qed.




Lemma payload_byte_after_header (bytes1 bytes2 : list uchar) (i : Z) :
  skipn 4 bytes1 = skipn 4 bytes2 -> 4 <= i ->
  payload_byte bytes1 i = payload_byte bytes2 i.
Proof.
  intros Hskip Hi. unfold payload_byte.
  replace (Z.to_nat i) with (4 + (Z.to_nat i - 4))%nat by lia.
  now rewrite <- !nth_error_skipn, Hskip.
Qed.

Lemma values_of_after_header (bytes1 bytes2 : list uchar) (len : Z) :
  skipn 4 bytes1 = skipn 4 bytes2 ->
  values_of bytes1 (fitting_prefix len segments)
  = values_of bytes2 (fitting_prefix len segments).
Proof.
  intros Hskip. unfold segments. cbn [fitting_prefix].
  repeat match goal with
         | |- context [fits len ?s] => destruct (fits len s)
         end;
    cbn [values_of seg_field seg_offset];
    rewrite ?(payload_byte_after_header bytes1 bytes2 _ Hskip) by lia;
    reflexivity.
Qed.

(** X10.  The measurement count and the status word take no part in the
    decoding: two telegrams whose payloads have the same length and agree
    from the fifth byte on leave the same values in the meter, and the one
    is decoded whenever the other is. *)
Theorem count_and_status_do_not_reach_the_meter
        (t1 t2 t1' : Telegram) (m m' : Meter) :
  mfct_0f_index t1 = mfct_0f_index t2 ->
  List.length (mfct_data t1) = List.length (mfct_data t2) ->
  skipn 4 (mfct_data t1) = skipn 4 (mfct_data t2) ->
  processContent renderJsonOnlyDefaultUnit t1 m = Ok (t1', m') ->
  exists t2', processContent renderJsonOnlyDefaultUnit t2 m = Ok (t2', m').
Proof.
  intros Hidx Hlen Hskip Hrun.
  destruct (Z.eq_dec (mfct_0f_index t1) (-1)) as [Hnone|Hsome].
  - unfold processContent in *. rewrite <- Hidx, Hnone in *.
    injection Hrun as _ <-. eexists. reflexivity.
  - destruct (processContent_outcome t1 m)
      as [([Hdate|Hnone] & _)|(_ & _ & Hbad)];
      [ | contradiction | rewrite Hbad in Hrun; discriminate Hrun ].
    assert (Hdate2 : date_within_year (mfct_data t2)).
    { intros lo hi Hlong Hlo Hhi. apply Hdate; [lia| |].
      - change 6%nat with (4 + 2)%nat in *.
        rewrite <- nth_error_skipn in *. now rewrite Hskip.
      - change 7%nat with (4 + 3)%nat in *.
        rewrite <- nth_error_skipn in *. now rewrite Hskip. }
    destruct (processContent_decodes_fitting_prefix
                renderJsonOnlyDefaultUnit t1 m Hsome Hdate)
      as (ne1 & nv1 & Hok1 & _ & Hval1).
    destruct (processContent_decodes_fitting_prefix
                renderJsonOnlyDefaultUnit t2 m ltac:(congruence) Hdate2)
      as (ne2 & nv2 & Hok2 & _ & Hval2).
    rewrite Hok1 in Hrun. injection Hrun as _ <-.
    assert (Hsame : nv2 = nv1).
    { rewrite <- (rev_involutive nv1), <- (rev_involutive nv2).
      f_equal. rewrite Hval1, Hval2, Hlen.
      symmetry. now apply values_of_after_header. }
    rewrite Hok2, Hsame. eexists. reflexivity.
Qed.

End EveryTelegram.

Lemma processContent_reads_inside_payload_witness :
  processContent (fun _ name _ => name)
                 (mkTelegram 0 0 overlong_day_payload []) []
  = Undefined (TableOverrun 12)
  /\ TableOverrun 12 = TableOverrun 12.
Proof.
  assert (H : processContent (fun _ name _ => name)
                (mkTelegram 0 0 overlong_day_payload []) []
              = Undefined (TableOverrun 12)) by reflexivity.
  split; [exact H|].
  exact (processContent_reads_inside_payload _ _ _ _ H).
Defined.

(** A payload of seventeen bytes: the scenario's thirteen and four more. *)
Lemma full_payload_decodes_every_segment_witness :
  exists new_explanations,
    processContent (fun _ name _ => name)
      (mkTelegram 3 7 (scenario_payload ++ [x27; x2a; x08; xff]) []) []
    = Ok (mkTelegram 3 7 (scenario_payload ++ [x27; x2a; x08; xff])
            new_explanations,
          [ ("average_ambient_temperature", Unit_C, toTemperature 8 42);
            ("current_consumption", Unit_HCA, toIndicationU 39 16);
            ("previous_average_ambient_temperature", Unit_C,
             toTemperature 39 15);
            ("previous_consumption", Unit_HCA, toIndicationU 3 232) ])
    /\ map (fun e => (ex_pos e, ex_len e)) new_explanations
       = [(10, 2); (12, 2); (14, 2); (18, 2); (20, 2); (22, 2); (24, 2)].
Proof.
  destruct (full_payload_decodes_every_segment (fun _ name _ => name)
              (mkTelegram 3 7 (scenario_payload ++ [x27; x2a; x08; xff]) [])
              []
              ltac:(discriminate) ltac:(cbn; lia)
              ltac:(intros lo hi _ Hlo Hhi; injection Hlo as <-;
                    injection Hhi as <-; vm_compute; discriminate))
    as (new_explanations & Hrun & Hex).
  exists new_explanations. split; [exact Hrun | exact Hex].
Defined.


Lemma count_and_status_do_not_reach_the_meter_witness :
  exists t2',
    processContent (fun _ name _ => name)
      (mkTelegram 0 0 (x09 :: xff :: x80 :: x01 :: skipn 4 scenario_payload)
                  []) []
    = Ok (t2',
          [ ("previous_average_ambient_temperature", Unit_C,
             S754_finite false 7036170730324623 (-46));
            ("previous_consumption", Unit_HCA,
             S754_finite false 7036874417766400 (-46)) ]).
Proof.
  exact (count_and_status_do_not_reach_the_meter (fun _ name _ => name)
           scenario_telegram
           (mkTelegram 0 0
              (x09 :: xff :: x80 :: x01 :: skipn 4 scenario_payload) [])
           _ [] _ eq_refl eq_refl eq_refl (scenario_run _)).
Defined.

(** ** Byte pairs and whole units *)

(** X11.  Each 16-bit word of the payload is read low byte first: the
    word is [bytes[i] + 256 * bytes[i+1]], it lies between 0 and 65535, and
    the conversion to [uint16_t] takes nothing away. *)
Theorem le16_is_low_byte_first (lo hi : uchar) :
  le16 lo hi = uchar_val lo + 256 * uchar_val hi
  /\ Z.lor (Z.shiftl (uchar_val hi) 8) (uchar_val lo) = le16 lo hi
  /\ 0 <= le16 lo hi <= 65535.
Proof.
  pose proof (uchar_val_range lo) as Hlo.
  pose proof (uchar_val_range hi) as Hhi.
  unfold le16. rewrite byte_pair_value by assumption.
  rewrite u16_small by lia. lia.
Qed.

Lemma double_same_eq (x y : double) : double_same x y = true -> x = y.
Proof.
  destruct x as [s| s| |s m e], y as [s'|s'| |s' m' e']; simpl;
    try discriminate; try reflexivity.
  - intros H. apply Bool.eqb_prop in H. now subst.
  - intros H. apply Bool.eqb_prop in H. now subst.
  - intros H. apply andb_prop in H as [H He]. apply andb_prop in H as [Hs Hm].
    apply Bool.eqb_prop in Hs. apply Pos.eqb_eq in Hm. apply Z.eqb_eq in He.
    now subst.
Qed.

Lemma whole_indications :
  all_from (fun k => double_same
                       (double_div (double_of_int (10 * k)) (double_of_int 10))
                       (double_of_int k)) 0 (Z.to_nat 6554) = true.
Proof. vm_cast_no_check (eq_refl true). Qed.

Lemma whole_temperatures :
  all_from (fun k => double_same
                       (double_div (double_of_int (100 * k))
                                   (double_of_int 100))
                       (double_of_int k)) 0 (Z.to_nat 656) = true.
Proof. vm_cast_no_check (eq_refl true). Qed.

(** X12.  Whole units come out exact: a raw indication of [10 * k] decodes
    to the double [k], and a raw temperature of [100 * k] decodes to the
    double [k], with no rounding. *)
Theorem whole_units_decode_exactly (hi lo k : Z) :
  0 <= hi <= 255 -> 0 <= lo <= 255 ->
  (hi * 256 + lo = 10 * k -> toIndicationU hi lo = double_of_int k)
  /\ (hi * 256 + lo = 100 * k -> toTemperature hi lo = double_of_int k).
Proof.
  intros Hhi Hlo. unfold toIndicationU, toTemperature.
  rewrite byte_pair_value by assumption.
  split; intros Hk; rewrite Hk; apply double_same_eq.
  - apply (all_from_sound _ _ _ whole_indications k).
    rewrite Z2Nat.id by lia. lia.
  - apply (all_from_sound _ _ _ whole_temperatures k).
    rewrite Z2Nat.id by lia. lia.
Qed.

Lemma whole_units_decode_exactly_witness :
  (0 <= 3 <= 255) /\ (0 <= 232 <= 255)
  /\ toIndicationU 3 232 = double_of_int 100
  /\ toTemperature 3 232 = double_of_int 10.
Proof.
  assert (Hhi : 0 <= 3 <= 255) by lia.
  assert (Hlo : 0 <= 232 <= 255) by lia.
  split; [exact Hhi|]. split; [exact Hlo|].
  destruct (whole_units_decode_exactly 3 232 100 Hhi Hlo) as [Hi _].
  destruct (whole_units_decode_exactly 3 232 10 Hhi Hlo) as [_ Ht].
  split; [apply Hi | apply Ht]; reflexivity.
Defined.
